(** * Dynamic symbol resolution for the FFI: runtime/lib/ffi_dynamic_library.cc

    A shallow embedding of the non-simulator branch of the file (the
    [#else] that starts at line 62) and the properties of its resolution
    paths.

    The C++ code talks to three collaborators whose code is elsewhere:
    the platform layer ([Utils::LoadDynamicLibrary],
    [Utils::ResolveSymbolInDynamicLibrary], [OS::SCreate]), the Win32 API
    ([CoTaskMemAlloc], [OpenProcess], [EnumProcessModules],
    [GetProcAddress], [CloseHandle]) and the VM's library table
    ([Library::LookupLibrary], [Library::ffi_native_resolver]).  Their
    answers are fields of a [Platform] record; every call to them is
    recorded in the trace of the [World] the code runs in. *)

From Stdlib Require Import ZArith String Ascii List Lia Bool.
From stdpp Require Import gmap strings list fin_maps infinite.

Local Open Scope Z_scope.

(** ** Machine integers *)

Module Word.

(** The two pointer widths of the supported targets. *)
Inductive Size := W32 | W64.

Definition bits (sz : Size) : Z :=
  match sz with W32 => 32 | W64 => 64 end.

Definition modulus (sz : Size) : Z := 2 ^ bits sz.

Definition half_modulus (sz : Size) : Z := 2 ^ (bits sz - 1).

(** The size in bytes of [intptr_t], of [HMODULE] and of a pointer. *)
Definition bytes (sz : Size) : Z := bits sz / 8.

(** A value is a well-formed [uword]/[uintptr_t]/[void*]. *)
Definition in_range (sz : Size) (x : Z) : Prop := 0 <= x < modulus sz.

(** Conversion to the unsigned type of the given width. *)
Definition to_uword (sz : Size) (x : Z) : Z := x mod modulus sz.

(** Conversion to the signed type of the given width ([intptr_t]). *)
Definition to_intptr (sz : Size) (x : Z) : Z :=
  let u := x mod modulus sz in
  if u <? half_modulus sz then u else u - modulus sz.

(** Conversion to [uint64_t]: value-preserving modulo [2^64], so a
    negative signed value is sign-extended. *)
Definition to_uint64 (x : Z) : Z := x mod 2 ^ 64.

End Word.

Definition nullptr : Z := 0.

(** ** Build target and collaborators *)

Inductive HostOS := Linux | MacOS | Android | Fuchsia | Windows.

(** [defined(DART_HOST_OS_WINDOWS)] *)
Definition DART_HOST_OS_WINDOWS (os : HostOS) : bool :=
  match os with Windows => true | _ => false end.

(** [defined(DART_HOST_OS_LINUX) || defined(DART_HOST_OS_MACOS) ||
     defined(DART_HOST_OS_ANDROID) || defined(DART_HOST_OS_FUCHSIA)] *)
Definition has_dlfcn (os : HostOS) : bool :=
  match os with Linux | MacOS | Android | Fuchsia => true | Windows => false end.

(** [Dart_FfiNativeResolver]: a C function from a name and a [uintptr_t]
    argument count to an address. *)
Definition Dart_FfiNativeResolver : Type := string -> Z -> Z.

(** A loaded Dart library, as far as this file looks at it.  A null
    resolver function pointer is [None]. *)
Record Library := {
  url : string;
  ffi_native_resolver : option Dart_FfiNativeResolver;
}.

Record Platform := {
  host_os : HostOS;
  word_size : Word.Size;
  (** [RTLD_DEFAULT] of [<dlfcn.h>]. *)
  RTLD_DEFAULT : Z;
  (** What the platform loader answers for a path ([None] is the null
      path): the handle and, when it reports a failure, its diagnostic. *)
  os_load : option string -> Z * option string;
  (** What the platform's per-handle lookup answers: the address and,
      when it reports a failure, its diagnostic. *)
  os_resolve : Z -> string -> Z * option string;
  (** [CoTaskMemAlloc]'s answer (null when the allocation fails). *)
  os_co_task_mem_alloc : Z;
  (** [OpenProcess]'s answer for the current process (null on failure). *)
  os_open_process : Z;
  (** [EnumProcessModules]: [None] when the call fails, otherwise every
      module of the process in the order the API reports them. *)
  os_process_modules : option (list Z);
  (** [GetProcAddress]. *)
  os_get_proc_address : Z -> string -> Z;
  (** [Library::LookupLibrary]; [None] is the null library. *)
  vm_lookup_library : string -> option Library;
}.

(** ** The world the code runs in *)

Inductive Event :=
| EvUtilsLoadDynamicLibrary (library_file : option string)
| EvUtilsResolveSymbolInDynamicLibrary (handle : Z) (symbol : string)
| EvCoTaskMemAlloc (size : Z)
| EvCoTaskMemFree (p : Z)
| EvOpenProcess
| EvEnumProcessModules (process : Z)
| EvGetProcAddress (module : Z) (symbol : string)
| EvCloseHandle (h : Z)
| EvLookupLibrary (lib_url : string)
| EvNativeResolver (symbol : string) (args_n : Z).

Record World := {
  (** The global of line 86. *)
  co_task_mem_allocated : Z;
  (** The [malloc]ed C strings that are live, by address. *)
  heap : gmap Z string;
  (** Calls made to the collaborators, oldest first. *)
  trace : list Event;
}.

Definition set_co_task_mem_allocated (p : Z) (w : World) : World :=
  {| co_task_mem_allocated := p; heap := heap w; trace := trace w |}.

Definition set_heap (h : gmap Z string) (w : World) : World :=
  {| co_task_mem_allocated := co_task_mem_allocated w; heap := h; trace := trace w |}.

Definition add_event (e : Event) (w : World) : World :=
  {| co_task_mem_allocated := co_task_mem_allocated w; heap := heap w;
     trace := trace w ++ [e] |}.

(** How a call ends: it returns, it throws a Dart [ArgumentError] with a
    message, or it leaves defined behaviour (a read past an array, a
    [free] of something not allocated). *)
Inductive Outcome (A : Type) :=
| Returns (a : A)
| Throws (msg : string)
| Undefined.
Arguments Returns {A} a.
Arguments Throws {A} msg.
Arguments Undefined {A}.

Definition M (A : Type) : Type := World -> Outcome A * World.

Definition ret {A} (a : A) : M A := fun w => (Returns a, w).

Definition bind {A B} (m : M A) (k : A -> M B) : M B :=
  fun w =>
    match m w with
    | (Returns a, w') => k a w'
    | (Throws msg, w') => (Throws msg, w')
    | (Undefined, w') => (Undefined, w')
    end.

Notation "'do' x <- c1 ; c2" := (bind c1 (fun x => c2))
  (at level 10, x name, c1 at level 100, c2 at level 200).
Notation "'do' ' pat <- c1 ; c2" :=
  (bind c1 (fun x => match x with pat => c2 end))
  (at level 10, pat pattern, c1 at level 100, c2 at level 200).
Notation "'run' c1 ; c2" := (bind c1 (fun _ => c2))
  (at level 10, c1 at level 100, c2 at level 200).

Definition throw {A} (msg : string) : M A := fun w => (Throws msg, w).
Definition undefined {A} : M A := fun w => (Undefined, w).
Definition emit (e : Event) : M unit := fun w => (Returns tt, add_event e w).

(** The events a run adds to the trace are what follows the old trace. *)
Definition emitted (w w' : World) (evs : list Event) : Prop :=
  trace w' = trace w ++ evs.

(** *** The C heap of messages *)

(** An address [malloc] may hand out: not null and not live. *)
Definition fresh_addr (h : gmap Z string) : Z := fresh ({[nullptr]} ∪ dom h).

Definition malloc_string (s : string) : M Z :=
  fun w =>
    let a := fresh_addr (heap w) in
    (Returns a, set_heap (<[a := s]> (heap w)) w).

(** [free(p)]: nothing for null, undefined for what is not live. *)
Definition free (p : Z) : M unit :=
  fun w =>
    if p =? nullptr then (Returns tt, w)
    else match heap w !! p with
         | Some _ => (Returns tt, set_heap (delete p (heap w)) w)
         | None => (Undefined, w)
         end.

(** Reading a [char*] for a [%s] of a format. *)
Definition c_str (p : Z) : M string :=
  fun w =>
    match heap w !! p with
    | Some s => (Returns s, w)
    | None => (Undefined, w)
    end.

(** [OS::SCreate(nullptr, fmt, ...)]: the formatted text in a fresh
    [malloc]ed buffer.  The formatting is done by the caller here. *)
Definition OS_SCreate (text : string) : M Z := malloc_string text.

(** [text] has [part] somewhere inside. *)
Definition mentions (text part : string) : Prop :=
  exists pre post, text = pre +:+ part +:+ post.

(** The message an error pointer stands for in a world. *)
Definition message_at (w : World) (error : Z) (text : string) : Prop :=
  error <> nullptr /\ heap w !! error = Some text.

(** ** The platform layer and the Win32 calls

    Each wrapper records the call and turns the platform's answer into the
    C convention: a result and an error out-parameter that is written only
    when the callee reports a failure.  [error] is the value the
    out-parameter holds on entry; the second component of the result is the
    value it holds on return. *)

Section Code.

Variable P : Platform.

Definition sizeof_ptr : Z := Word.bytes (word_size P).

(** Modelled from the spec: [Utils::LoadDynamicLibrary] of the platform
    layer, which is not part of this file.  It opens the library and
    puts a [malloc]ed diagnostic in [*error] when the platform reports
    one. *)
Definition Utils_LoadDynamicLibrary (library_file : option string)
    (error : Z) : M (Z * Z) :=
  run emit (EvUtilsLoadDynamicLibrary library_file);
  match os_load P library_file with
  | (handle, Some diagnostic) =>
      do e <- malloc_string diagnostic;
      ret (handle, e)
  | (handle, None) => ret (handle, error)
  end.

(** Modelled from the spec: [Utils::ResolveSymbolInDynamicLibrary] of
    the platform layer, which is not part of this file: the native
    per-handle symbol lookup, with a [malloc]ed diagnostic in [*error]
    when the platform reports one. *)
Definition Utils_ResolveSymbolInDynamicLibrary (handle : Z)
    (symbol : string) (error : Z) : M (Z * Z) :=
  run emit (EvUtilsResolveSymbolInDynamicLibrary handle symbol);
  match os_resolve P handle symbol with
  | (result, Some diagnostic) =>
      do e <- malloc_string diagnostic;
      ret (result, e)
  | (result, None) => ret (result, error)
  end.

Definition CoTaskMemAlloc (size : Z) : M Z :=
  run emit (EvCoTaskMemAlloc size);
  ret (os_co_task_mem_alloc P).

Definition CoTaskMemFree (p : Z) : M unit := emit (EvCoTaskMemFree p).

Definition OpenProcess : M Z :=
  run emit EvOpenProcess;
  ret (os_open_process P).

Definition CloseHandle (h : Z) : M unit := emit (EvCloseHandle h).

Definition GetProcAddress (module : Z) (symbol : string) : M Z :=
  run emit (EvGetProcAddress module symbol);
  ret (os_get_proc_address P module symbol).

(** The capacity of [HMODULE modules[1024]]. *)
Definition modules_capacity : nat := 1024%nat.

(** [EnumProcessModules(process, modules, sizeof(modules), &cb_needed)]:
    on success the array receives as many module handles as fit and
    [cb_needed] the number of bytes that the handles of all the modules
    need, which is more than the size of the array when the process has
    more modules than the array has entries (Win32 documents
    [lpcbNeeded] so).  The result is the call's truth value, the array
    and [cb_needed]. *)
Definition EnumProcessModules (process : Z) : M (bool * list Z * Z) :=
  run emit (EvEnumProcessModules process);
  match os_process_modules P with
  | None => ret (false, [], 0)
  | Some all =>
      ret (true, take modules_capacity all,
           Z.of_nat (length all) * sizeof_ptr)
  end.

Definition get_co_task_mem_allocated : M Z :=
  fun w => (Returns (co_task_mem_allocated w), w).

Definition put_co_task_mem_allocated (p : Z) : M unit :=
  fun w => (Returns tt, set_co_task_mem_allocated p w).

(** ** The code of the file *)

(** Lines 67-80.  [error] is [None] when the caller passes no
    out-parameter (the default argument). *)
Definition LoadDynamicLibrary (library_file : option string)
    (error : option Z) : M (Z * option Z) :=
  do '(handle, utils_error) <- Utils_LoadDynamicLibrary library_file nullptr;
  if negb (utils_error =? nullptr) then
    do error' <-
      match error with
      | Some _ =>
          do diagnostic <- c_str utils_error;
          do e <- OS_SCreate
                    ("Failed to load dynamic library '" +:+
                     (match library_file with
                      | Some f => f
                      | None => "<process>"
                      end) +:+ "': " +:+ diagnostic);
          ret (Some e)
      | None => ret None
      end;
    run free utils_error;
    ret (handle, error')
  else ret (handle, error).

(** Line 84. *)
Definition kWindowsDynamicLibraryProcessPtr : Z := nullptr.

(** Lines 92-95: force loading ole32.dll. *)
Definition force_load_ole32 : M unit :=
  do guard <- get_co_task_mem_allocated;
  if guard =? nullptr then
    do p <- CoTaskMemAlloc sizeof_ptr;
    run put_co_task_mem_allocated p;
    CoTaskMemFree p
  else ret tt.

(** Lines 109-115: the loop, entered at index [i] with [remaining]
    iterations to go.  [Some result] is the early return of line 113,
    [None] the loop running to its end.  [modules[i]] with [i] past the
    entries of the array is undefined. *)
Fixpoint probe_modules (modules : list Z) (symbol : string) (i : nat)
    (remaining : nat) : M (option Z) :=
  match remaining with
  | O => ret None
  | S remaining' =>
      match modules !! i with
      | None => undefined
      | Some module =>
          do result <- GetProcAddress module symbol;
          if negb (result =? nullptr) then ret (Some result)
          else probe_modules modules symbol (S i) remaining'
      end
  end.

(** Lines 90-124. *)
Definition LookupSymbolInProcess (symbol : string) (error : Z) : M (Z * Z) :=
  run force_load_ole32;
  do current_process <- OpenProcess;
  if current_process =? nullptr then
    do e <- OS_SCreate "Failed to open current process.";
    ret (nullptr, e)
  else
    do '(ok, modules, cb_needed) <- EnumProcessModules current_process;
    do hit <-
      (if ok then
         probe_modules modules symbol 0 (Z.to_nat (cb_needed / sizeof_ptr))
       else ret None);
    match hit with
    | Some result =>
        run CloseHandle current_process;
        ret (result, error)
    | None =>
        run CloseHandle current_process;
        do e <- OS_SCreate
                  ("None of the loaded modules contained the requested symbol '"
                   +:+ symbol +:+ "'.");
        ret (nullptr, e)
    end.

(** Lines 129-136. *)
Definition ResolveSymbol (handle : Z) (symbol : string) (error : Z)
    : M (Z * Z) :=
  if DART_HOST_OS_WINDOWS (host_os P)
     && (handle =? kWindowsDynamicLibraryProcessPtr)
  then LookupSymbolInProcess symbol error
  else Utils_ResolveSymbolInDynamicLibrary handle symbol error.

(** Lines 138-154. *)
Definition SymbolExists (handle : Z) (symbol : string) : M bool :=
  do '(_, error) <-
    (if negb (DART_HOST_OS_WINDOWS (host_os P)) then
       Utils_ResolveSymbolInDynamicLibrary handle symbol nullptr
     else if handle =? nullptr then
       LookupSymbolInProcess symbol nullptr
     else
       Utils_ResolveSymbolInDynamicLibrary handle symbol nullptr);
  if negb (error =? nullptr) then
    run free error;
    ret false
  else ret true.

(** The [DynamicLibrary] object of the VM: a box around the handle. *)
Record DynamicLibrary := DynamicLibrary_New { GetHandle : Z }.

(** Lines 156-167. *)
Definition Ffi_dl_open (lib_path : string) : M DynamicLibrary :=
  do '(handle, error) <- LoadDynamicLibrary (Some lib_path) (Some nullptr);
  match error with
  | Some e =>
      if negb (e =? nullptr) then
        do msg <- c_str e;
        run free e;
        throw msg
      else ret (DynamicLibrary_New handle)
  | None => ret (DynamicLibrary_New handle)
  end.

(** Lines 169-176. *)
Definition Ffi_dl_processLibrary : DynamicLibrary :=
  if has_dlfcn (host_os P) then DynamicLibrary_New (RTLD_DEFAULT P)
  else DynamicLibrary_New kWindowsDynamicLibraryProcessPtr.

(** Lines 178-180. *)
Definition Ffi_dl_executableLibrary : M DynamicLibrary :=
  do '(handle, _) <- LoadDynamicLibrary None None;
  ret (DynamicLibrary_New handle).

(** Lines 182-199.  The result is the [uword] given to [Pointer::New]. *)
Definition Ffi_dl_lookup (dlib : DynamicLibrary) (argSymbolName : string)
    : M Z :=
  let handle := GetHandle dlib in
  do '(result, error) <- ResolveSymbol handle argSymbolName nullptr;
  let pointer := Word.to_uword (word_size P) result in
  if negb (error =? nullptr) then
    do text <- c_str error;
    run free error;
    throw ("Failed to lookup symbol '" +:+ argSymbolName +:+ "': " +:+ text)
  else ret pointer.

(** Lines 201-206.  The result is the [uint64_t] that
    [Integer::NewFromUint64] receives: the handle goes through
    [intptr_t] first. *)
Definition Ffi_dl_getHandle (dlib : DynamicLibrary) : Z :=
  let handle := Word.to_intptr (word_size P) (GetHandle dlib) in
  Word.to_uint64 handle.

(** Lines 208-215. *)
Definition Ffi_dl_providesSymbol (dlib : DynamicLibrary)
    (argSymbolName : string) : M bool :=
  let handle := GetHandle dlib in
  SymbolExists handle argSymbolName.

(** Lines 218-227. *)
Definition GetFfiNativeResolver (lib_url_str : string)
    : M (option Dart_FfiNativeResolver) :=
  run emit (EvLookupLibrary lib_url_str);
  match vm_lookup_library P lib_url_str with
  | None => ret None
  | Some lib => ret (ffi_native_resolver lib)
  end.

(** Lines 231-242.  [args_n] arrives as an [intptr_t] and is given to
    the resolver, whose parameter is a [uintptr_t]. *)
Definition FfiResolveWithFfiNativeResolver
    (resolver : Dart_FfiNativeResolver) (symbol : string) (args_n : Z)
    (error : Z) : M (Z * Z) :=
  let args := Word.to_uword (word_size P) args_n in
  run emit (EvNativeResolver symbol args);
  let result := resolver symbol args in
  if result =? nullptr then
    do e <- OS_SCreate ("Couldn't resolve function: '" +:+ symbol +:+ "'");
    ret (result, e)
  else ret (result, error).

Definition newline : string := String (ascii_of_nat 10) EmptyString.

(** Lines 245-253. *)
Definition ThrowFfiResolveError {A} (symbol asset : string) (error : Z)
    : M A :=
  do text <- c_str error;
  let error_message :=
    "Couldn't resolve native function '" +:+ symbol +:+ "' in '" +:+ asset
    +:+ "' : " +:+ text +:+ "." +:+ newline in
  run free error;
  throw error_message.

(** Lines 256-288.  [args_n] is a [uintptr_t]; the result is an
    [intptr_t]. *)
Definition FfiResolve (asset symbol : string) (args_n : Z) : M Z :=
  do resolver <- GetFfiNativeResolver asset;
  match resolver with
  | Some resolver =>
      do '(ffi_native_result, error) <-
        FfiResolveWithFfiNativeResolver resolver symbol
          (Word.to_intptr (word_size P) args_n) nullptr;
      if negb (error =? nullptr) then ThrowFfiResolveError symbol asset error
      else ret (Word.to_intptr (word_size P) ffi_native_result)
  | None =>
      do '(result, error) <-
        (if negb (DART_HOST_OS_WINDOWS (host_os P)) then
           Utils_ResolveSymbolInDynamicLibrary (RTLD_DEFAULT P) symbol nullptr
         else LookupSymbolInProcess symbol nullptr);
      if negb (error =? nullptr) then ThrowFfiResolveError symbol asset error
      else ret (Word.to_intptr (word_size P) result)
  end.

End Code.

(** ** Pure descriptions of what the scanner does *)

(** The address of the first module, in list order, whose
    [GetProcAddress] answer for [symbol] is not null. *)
Fixpoint first_hit (P : Platform) (symbol : string) (modules : list Z)
    : option Z :=
  match modules with
  | [] => None
  | module :: rest =>
      let result := os_get_proc_address P module symbol in
      if negb (result =? nullptr) then Some result
      else first_hit P symbol rest
  end.

(** The modules that get probed: every one up to and including the first
    hit, in list order. *)
Fixpoint probed (P : Platform) (symbol : string) (modules : list Z)
    : list Z :=
  match modules with
  | [] => []
  | module :: rest =>
      if negb (os_get_proc_address P module symbol =? nullptr) then [module]
      else module :: probed P symbol rest
  end.

Definition add_events (evs : list Event) (w : World) : World :=
  {| co_task_mem_allocated := co_task_mem_allocated w; heap := heap w;
     trace := trace w ++ evs |}.

(** The world after [malloc] of a message. *)
Definition with_message (s : string) (w : World) : World :=
  set_heap (<[fresh_addr (heap w) := s]> (heap w)) w.

(** The world after the forced load of ole32.dll on platform [P]. *)
Definition after_force_load (P : Platform) (w : World) : World :=
  if co_task_mem_allocated w =? nullptr then
    add_events [EvCoTaskMemAlloc (Word.bytes (word_size P));
                EvCoTaskMemFree (os_co_task_mem_alloc P)]
      (set_co_task_mem_allocated (os_co_task_mem_alloc P) w)
  else w.

Definition not_found_text (symbol : string) : string :=
  "None of the loaded modules contained the requested symbol '"
  +:+ symbol +:+ "'.".

Definition open_failed_text : string := "Failed to open current process.".

(** The contracts the spec gives for the platform layer. *)

(** A loader failure comes with a null handle. *)
Definition load_error_means_null (P : Platform) : Prop :=
  forall library_file handle diagnostic,
    os_load P library_file = (handle, Some diagnostic) -> handle = nullptr.

(** A load without a diagnostic gives a handle that is not null. *)
Definition load_success_means_handle (P : Platform) : Prop :=
  forall library_file handle,
    os_load P library_file = (handle, None) -> handle <> nullptr.

(** A lookup failure comes with a null address. *)
Definition resolve_error_means_null (P : Platform) : Prop :=
  forall handle symbol result diagnostic,
    os_resolve P handle symbol = (result, Some diagnostic) -> result = nullptr.

(** A lookup without a diagnostic gives an address that is not null. *)
Definition resolve_success_means_address (P : Platform) : Prop :=
  forall handle symbol result,
    os_resolve P handle symbol = (result, None) -> result <> nullptr.

(** ** The texts and the addresses of the errors *)

(** The address of the message that [LoadDynamicLibrary] creates while the
    platform's diagnostic is still live. *)
Definition load_error_addr (h : gmap Z string) (diagnostic : string) : Z :=
  fresh_addr (<[fresh_addr h := diagnostic]> h).

(** The format of line 74. *)
Definition load_error_text (library_file : option string)
    (diagnostic : string) : string :=
  "Failed to load dynamic library '" +:+
  (match library_file with Some f => f | None => "<process>" end) +:+
  "': " +:+ diagnostic.

(** The format of line 249. *)
Definition resolve_error_text (symbol asset text : string) : string :=
  "Couldn't resolve native function '" +:+ symbol +:+ "' in '" +:+ asset
  +:+ "' : " +:+ text +:+ "." +:+ newline.

(** A result and the error it comes with are never both set. *)
Definition not_both (result error : Z) : Prop :=
  (result <> nullptr -> error = nullptr) /\
  (error <> nullptr -> result = nullptr).

(** ** The calls a run makes *)

(** One [GetProcAddress] call per module, in list order. *)
Definition probe_events (symbol : string) (modules : list Z) : list Event :=
  map (fun module => EvGetProcAddress module symbol) modules.

(** Every module of the process has a place in the array. *)
Definition modules_fit (P : Platform) : Prop :=
  match os_process_modules P with
  | Some all => (length all <= modules_capacity)%nat
  | None => True
  end.

(** The modules the scanner sees: none when the enumeration fails. *)
Definition snapshot (P : Platform) : list Z :=
  match os_process_modules P with Some all => all | None => [] end.

(** The events of a scan after the process was opened. *)
Definition scan_events (P : Platform) (symbol : string) : list Event :=
  [EvEnumProcessModules (os_open_process P)] ++
  probe_events symbol (probed P symbol (snapshot P)) ++
  [EvCloseHandle (os_open_process P)].

(** The calls a scan makes after the forced load. *)
Definition is_scan_event (e : Event) : bool :=
  match e with
  | EvOpenProcess | EvEnumProcessModules _ | EvGetProcAddress _ _
  | EvCloseHandle _ => true
  | _ => false
  end.

(** Nothing but calls of a scan. *)
Definition scan_only (evs : list Event) : Prop :=
  Forall (fun e => is_scan_event e = true) evs.

(** A call of the platform's per-handle lookup. *)
Definition is_platform_lookup (e : Event) : bool :=
  match e with
  | EvUtilsResolveSymbolInDynamicLibrary _ _ => true
  | _ => false
  end.

(** A call of the COM allocator. *)
Definition is_co_task_mem_call (e : Event) : bool :=
  match e with
  | EvCoTaskMemAlloc _ | EvCoTaskMemFree _ => true
  | _ => false
  end.

(** The calls of the forced load: none once the guard is set. *)
Definition force_load_events (P : Platform) (w : World) : list Event :=
  if co_task_mem_allocated w =? nullptr then
    [EvCoTaskMemAlloc (Word.bytes (word_size P));
     EvCoTaskMemFree (os_co_task_mem_alloc P)]
  else [].

(** No call of the COM allocator. *)
Definition no_co_task_mem_calls (evs : list Event) : Prop :=
  Forall (fun e => is_co_task_mem_call e = false) evs.

(** ** The orchestrator without a resolver *)

(** The asset has no resolver of its own: the library table has no
    library for it, or the library has a null resolver. *)
Definition no_resolver (P : Platform) (asset : string) : Prop :=
  vm_lookup_library P asset = None \/
  exists lib,
    vm_lookup_library P asset = Some lib /\ ffi_native_resolver lib = None.

(** Lines 284-287 (and 271-274): what the orchestrator does with the
    answer of a lookup. *)
Definition throw_or_return (P : Platform) (symbol asset : string)
    (answer : Z * Z) : M Z :=
  let '(result, error) := answer in
  if negb (error =? nullptr) then ThrowFfiResolveError symbol asset error
  else ret (Word.to_intptr (word_size P) result).

(** ** The open of the spec *)

(** The [open] of the spec as the native entries ask for it: with a path
    it is the call of [Ffi_dl_open] (line 160), without one the call of
    [Ffi_dl_executableLibrary] (line 179), which passes no error
    out-parameter. *)
Definition spec_open (P : Platform) (path : option string)
    : M (Z * option Z) :=
  match path with
  | Some f => LoadDynamicLibrary P (Some f) (Some nullptr)
  | None => LoadDynamicLibrary P None None
  end.

(** The claim of the spec about a failed open: a null handle together
    with an error whose text has the diagnostic and, with a path, the
    path in it. *)
Definition failed_open_reports_error (P : Platform) (path : option string)
    (w : World) : Prop :=
  forall handle diagnostic,
    os_load P path = (handle, Some diagnostic) ->
    exists error text w',
      spec_open P path w = (Returns (nullptr, Some error), w') /\
      message_at w' error text /\
      mentions text diagnostic /\
      (forall f, path = Some f -> mentions text f).

(** ** The guard of the forced load and sequences of calls *)

(** The state of the guard: initialized is a non-null
    [co_task_mem_allocated]. *)
Definition initialized (w : World) : Prop := co_task_mem_allocated w <> nullptr.

(** A computation that, run with the guard set, leaves the guard as it is
    and makes no [CoTaskMemAlloc] or [CoTaskMemFree] call. *)
Definition settled {A} (m : M A) : Prop :=
  forall w,
    initialized w ->
    co_task_mem_allocated (snd (m w)) = co_task_mem_allocated w /\
    exists evs,
      trace (snd (m w)) = trace w ++ evs /\ no_co_task_mem_calls evs.

(** The entries of the file that a program can call, and a scan on its
    own. *)
Inductive Call :=
| CallOpen (lib_path : string)
| CallExecutableLibrary
| CallLookup (dlib : DynamicLibrary) (symbol : string)
| CallProvidesSymbol (dlib : DynamicLibrary) (symbol : string)
| CallFfiResolve (asset symbol : string) (args_n : Z)
| CallScan (symbol : string).

(** The world after a call made while the host is as [P] says. *)
Definition perform (P : Platform) (c : Call) (w : World) : World :=
  match c with
  | CallOpen lib_path => snd (Ffi_dl_open P lib_path w)
  | CallExecutableLibrary => snd (Ffi_dl_executableLibrary P w)
  | CallLookup dlib symbol => snd (Ffi_dl_lookup P dlib symbol w)
  | CallProvidesSymbol dlib symbol => snd (Ffi_dl_providesSymbol P dlib symbol w)
  | CallFfiResolve asset symbol args_n => snd (FfiResolve P asset symbol args_n w)
  | CallScan symbol => snd (LookupSymbolInProcess P symbol nullptr w)
  end.

(** The world after a sequence of calls, each with the host as it is at
    the time of the call. *)
Definition perform_all (calls : list (Platform * Call)) (w : World) : World :=
  fold_left (fun w pc => perform (fst pc) (snd pc) w) calls w.

(** ** Sample hosts *)

(** A fresh process: the guard null, no message live, no call made. *)
Definition empty_world : World :=
  {| co_task_mem_allocated := nullptr; heap := ∅; trace := [] |}.

(** A resolver that knows one function. *)
Definition sample_resolver : Dart_FfiNativeResolver :=
  fun symbol args_n => if String.eqb symbol "add_ints" then 4242 else nullptr.

(** The library of the asset "my_asset". *)
Definition sample_library : Library :=
  {| url := "my_asset"; ffi_native_resolver := Some sample_resolver |}.

(** A loader that opens "libfoo" and the main executable. *)
Definition sample_load (library_file : option string) : Z * option string :=
  match library_file with
  | Some f =>
      if String.eqb f "libfoo" then (4096, None)
      else (nullptr, Some "cannot open shared object file")
  | None => (1024, None)
  end.

(** A lookup that finds "add_ints" in "libfoo" and "puts" anywhere. *)
Definition sample_resolve (handle : Z) (symbol : string) : Z * option string :=
  if (handle =? 4096) && String.eqb symbol "add_ints" then (8192, None)
  else if String.eqb symbol "puts" then (12288, None)
  else (nullptr, Some "undefined symbol").

(** A 64-bit Windows process with three modules; the second exports
    "puts". *)
Definition sample_windows : Platform :=
  {| host_os := Windows; word_size := Word.W64; RTLD_DEFAULT := 0;
     os_load := sample_load;
     os_resolve := sample_resolve;
     os_co_task_mem_alloc := 512;
     os_open_process := 64;
     os_process_modules := Some [256; 257; 258];
     os_get_proc_address :=
       fun module symbol =>
         if (module =? 257) && String.eqb symbol "puts" then 12288 else nullptr;
     vm_lookup_library :=
       fun u => if String.eqb u "my_asset" then Some sample_library else None |}.

(** A 64-bit Linux process. *)
Definition sample_linux : Platform :=
  {| host_os := Linux; word_size := Word.W64; RTLD_DEFAULT := 0;
     os_load := sample_load;
     os_resolve := sample_resolve;
     os_co_task_mem_alloc := nullptr;
     os_open_process := nullptr;
     os_process_modules := None;
     os_get_proc_address := fun _ _ => nullptr;
     vm_lookup_library :=
       fun u => if String.eqb u "my_asset" then Some sample_library else None |}.

(** A 64-bit Windows process with 1025 modules, none of which exports
    anything. *)
Definition crowded_windows : Platform :=
  {| host_os := Windows; word_size := Word.W64; RTLD_DEFAULT := 0;
     os_load := sample_load;
     os_resolve := sample_resolve;
     os_co_task_mem_alloc := 512;
     os_open_process := 64;
     os_process_modules := Some (map Z.of_nat (seq 1 1025));
     os_get_proc_address := fun _ _ => nullptr;
     vm_lookup_library := fun _ => None |}.

(** A Windows process whose module enumeration fails. *)
Definition blind_windows : Platform :=
  {| host_os := Windows; word_size := Word.W64; RTLD_DEFAULT := 0;
     os_load := sample_load;
     os_resolve := sample_resolve;
     os_co_task_mem_alloc := 512;
     os_open_process := 64;
     os_process_modules := None;
     os_get_proc_address := fun _ _ => nullptr;
     vm_lookup_library := fun _ => None |}.

(** A Linux process whose loader opens nothing. *)
Definition failing_loader_linux : Platform :=
  {| host_os := Linux; word_size := Word.W64; RTLD_DEFAULT := 0;
     os_load := fun _ => (nullptr, Some "cannot open shared object file");
     os_resolve := sample_resolve;
     os_co_task_mem_alloc := nullptr;
     os_open_process := nullptr;
     os_process_modules := None;
     os_get_proc_address := fun _ _ => nullptr;
     vm_lookup_library := fun _ => None |}.

(** A 32-bit Linux process. *)
Definition linux_arm32 : Platform :=
  {| host_os := Linux; word_size := Word.W32; RTLD_DEFAULT := 0;
     os_load := sample_load;
     os_resolve := sample_resolve;
     os_co_task_mem_alloc := nullptr;
     os_open_process := nullptr;
     os_process_modules := None;
     os_get_proc_address := fun _ _ => nullptr;
     vm_lookup_library := fun _ => None |}.

(** ** Footprints of the entries *)

(** The format of line 194. *)
Definition lookup_error_text (symbol text : string) : string :=
  "Failed to lookup symbol '" +:+ symbol +:+ "': " +:+ text.

(** The format of line 239. *)
Definition resolver_error_text (symbol : string) : string :=
  "Couldn't resolve function: '" +:+ symbol +:+ "'".

(** A call of the platform loader. *)
Definition is_load_call (e : Event) : bool :=
  match e with
  | EvUtilsLoadDynamicLibrary _ => true
  | _ => false
  end.

(** A call into Win32: the COM allocator or a call of a scan. *)
Definition is_win32_call (e : Event) : bool :=
  is_co_task_mem_call e || is_scan_event e.

(** A call that looks a symbol up: the platform lookup or a Win32 call. *)
Definition is_lookup_call (e : Event) : bool :=
  is_platform_lookup e || is_win32_call e.

(** A computation all of whose calls are [allowed]. *)
Definition confined (allowed : Event -> bool) {A} (m : M A) : Prop :=
  forall w,
    exists evs,
      trace (snd (m w)) = trace w ++ evs /\
      Forall (fun e => allowed e = true) evs.

(** A computation that leaves [co_task_mem_allocated] as it is. *)
Definition keeps_guard {A} (m : M A) : Prop :=
  forall w, co_task_mem_allocated (snd (m w)) = co_task_mem_allocated w.

(** A computation that leaves the heap of messages as it is. *)
Definition keeps_heap {A} (m : M A) : Prop :=
  forall w, heap (snd (m w)) = heap w.

(** The native entries, as opposed to a scan called on its own. *)
Definition is_entry (c : Call) : bool :=
  match c with
  | CallScan _ => false
  | _ => true
  end.

(** A Windows process whose loader opens nothing, not even the main
    executable. *)
Definition failing_loader_windows : Platform :=
  {| host_os := Windows; word_size := Word.W64; RTLD_DEFAULT := 0;
     os_load := fun _ => (nullptr, Some "The specified module could not be found.");
     os_resolve := sample_resolve;
     os_co_task_mem_alloc := 512;
     os_open_process := 64;
     os_process_modules := Some [256; 257; 258];
     os_get_proc_address :=
       fun module symbol =>
         if (module =? 257) && String.eqb symbol "puts" then 12288 else nullptr;
     vm_lookup_library := fun _ => None |}.

(** ** The existence check as the spec states it *)

(** The claim of the spec about [exists]: it is true exactly when
    [resolve] on the same handle and symbol succeeds, that is, returns an
    address that is not null and no error. *)
Definition exists_iff_resolve_succeeds (P : Platform) (handle : Z)
    (symbol : string) (w : World) : Prop :=
  match ResolveSymbol P handle symbol nullptr w with
  | (Returns (result, error), _) =>
      fst (SymbolExists P handle symbol w) = Returns true <->
      result <> nullptr /\ error = nullptr
  | _ => True
  end.

(** A lookup as dlsym documents it: "weak_fn" is defined and its value is
    the null address, which comes back without a diagnostic. *)
Definition null_symbol_resolve (handle : Z) (symbol : string)
    : Z * option string :=
  if String.eqb symbol "weak_fn" then (nullptr, None)
  else sample_resolve handle symbol.

(** A 64-bit Linux process with that lookup. *)
Definition null_symbol_linux : Platform :=
  {| host_os := Linux; word_size := Word.W64; RTLD_DEFAULT := 0;
     os_load := sample_load;
     os_resolve := null_symbol_resolve;
     os_co_task_mem_alloc := nullptr;
     os_open_process := nullptr;
     os_process_modules := None;
     os_get_proc_address := fun _ _ => nullptr;
     vm_lookup_library := fun _ => None |}.

(** * Properties *)

(** ** Words *)

Lemma modulus_pos sz : 0 < Word.modulus sz.
Proof. destruct sz; reflexivity. Qed.

Lemma to_uword_in_range sz x : Word.in_range sz x -> Word.to_uword sz x = x.
Proof. intros H. apply Z.mod_small. exact H. Qed.

Lemma to_intptr_congruent sz x :
  Word.to_uword sz (Word.to_intptr sz x) = Word.to_uword sz x.
Proof.
  unfold Word.to_uword, Word.to_intptr.
  pose proof (modulus_pos sz) as Hm.
  destruct (x mod Word.modulus sz <? Word.half_modulus sz).
  - apply Z.mod_mod. lia.
  - rewrite Zminus_mod, Z.mod_mod, Z_mod_same_full, Z.sub_0_r by lia.
    apply Z.mod_mod. lia.
Qed.

(** [uintptr_t -> intptr_t -> uintptr_t] and [void* -> intptr_t -> void*]
    give the value back. *)
Lemma to_uword_to_intptr sz x :
  Word.in_range sz x -> Word.to_uword sz (Word.to_intptr sz x) = x.
Proof. intros H. rewrite to_intptr_congruent. now apply to_uword_in_range. Qed.

Lemma to_intptr_null sz : Word.to_intptr sz nullptr = 0.
Proof. destruct sz; reflexivity. Qed.

(** ** The heap *)

Lemma fresh_addr_nonnull h : fresh_addr h <> nullptr.
Proof.
  unfold fresh_addr.
  pose proof (is_fresh ({[nullptr]} ∪ dom h)) as Hf. set_solver.
Qed.

Lemma fresh_addr_unused h : h !! fresh_addr h = None.
Proof.
  apply not_elem_of_dom. unfold fresh_addr.
  pose proof (is_fresh ({[nullptr]} ∪ dom h)) as Hf. set_solver.
Qed.

Lemma fresh_addr_eqb h : (fresh_addr h =? nullptr) = false.
Proof. apply Z.eqb_neq, fresh_addr_nonnull. Qed.

Lemma delete_fresh (h : gmap Z string) s :
  delete (fresh_addr h) (<[fresh_addr h := s]> h) = h.
Proof.
  rewrite delete_insert_eq. apply delete_id, fresh_addr_unused.
Qed.

Lemma lookup_fresh (h : gmap Z string) s :
  <[fresh_addr h := s]> h !! fresh_addr h = Some s.
Proof. apply lookup_insert_eq. Qed.

Lemma world_eta w :
  {| co_task_mem_allocated := co_task_mem_allocated w; heap := heap w;
     trace := trace w |} = w.
Proof. now destruct w. Qed.

Lemma add_events_nil w : add_events [] w = w.
Proof. unfold add_events. rewrite app_nil_r. apply world_eta. Qed.

Lemma add_events_app evs1 evs2 w :
  add_events evs2 (add_events evs1 w) = add_events (evs1 ++ evs2) w.
Proof. unfold add_events. simpl. now rewrite app_assoc. Qed.

Lemma add_event_events e w : add_event e w = add_events [e] w.
Proof. reflexivity. Qed.

(** [malloc] of a message and [free] of it leave the heap as it was. *)
Lemma free_with_message s w :
  free (fresh_addr (heap w)) (with_message s w) = (Returns tt, w).
Proof.
  unfold free, with_message, set_heap. simpl.
  rewrite fresh_addr_eqb, lookup_fresh, delete_fresh. now rewrite world_eta.
Qed.

Lemma c_str_with_message s w :
  c_str (fresh_addr (heap w)) (with_message s w) = (Returns s, with_message s w).
Proof. unfold c_str, with_message, set_heap. simpl. now rewrite lookup_fresh. Qed.

Lemma message_at_with_message s w :
  message_at (with_message s w) (fresh_addr (heap w)) s.
Proof.
  split; [apply fresh_addr_nonnull |]. unfold with_message. simpl.
  apply lookup_fresh.
Qed.

(** ** Texts *)

Lemma mentions_middle pre part post : mentions (pre +:+ part +:+ post) part.
Proof. now exists pre, post. Qed.

Lemma append_cons ch (a b : string) : String ch a +:+ b = String ch (a +:+ b).
Proof. reflexivity. Qed.

Lemma append_assoc (a b c : string) : (a +:+ b) +:+ c = a +:+ b +:+ c.
Proof.
  induction a as [|ch a IH]; [reflexivity |].
  rewrite !append_cons. now f_equal.
Qed.

Lemma append_nil_r (a : string) : a +:+ EmptyString = a.
Proof.
  induction a as [|ch a IH]; [reflexivity |].
  rewrite append_cons. now f_equal.
Qed.

Lemma mentions_end pre part : mentions (pre +:+ part) part.
Proof. exists pre, EmptyString. now rewrite append_nil_r. Qed.

Lemma mentions_inside pre text post part :
  mentions text part -> mentions (pre +:+ text +:+ post) part.
Proof.
  intros (a & b & ->). exists (pre +:+ a), (b +:+ post).
  now rewrite !append_assoc.
Qed.

(** ** What each call of the platform layer does *)

Lemma Utils_LoadDynamicLibrary_run P library_file error w :
  Utils_LoadDynamicLibrary P library_file error w =
    let w1 := add_event (EvUtilsLoadDynamicLibrary library_file) w in
    match os_load P library_file with
    | (handle, Some diagnostic) =>
        (Returns (handle, fresh_addr (heap w)), with_message diagnostic w1)
    | (handle, None) => (Returns (handle, error), w1)
    end.
Proof.
  unfold Utils_LoadDynamicLibrary, bind, emit. simpl.
  now destruct (os_load P library_file) as [handle [diagnostic|]].
Qed.

Lemma Utils_ResolveSymbolInDynamicLibrary_run P handle symbol error w :
  Utils_ResolveSymbolInDynamicLibrary P handle symbol error w =
    let w1 := add_event (EvUtilsResolveSymbolInDynamicLibrary handle symbol) w in
    match os_resolve P handle symbol with
    | (result, Some diagnostic) =>
        (Returns (result, fresh_addr (heap w)), with_message diagnostic w1)
    | (result, None) => (Returns (result, error), w1)
    end.
Proof.
  unfold Utils_ResolveSymbolInDynamicLibrary, bind, emit. simpl.
  now destruct (os_resolve P handle symbol) as [result [diagnostic|]].
Qed.

(** ** The loader *)

Lemma load_error_addr_fresh (h : gmap Z string) diagnostic :
  load_error_addr h diagnostic <> nullptr /\
  load_error_addr h diagnostic <> fresh_addr h /\
  h !! load_error_addr h diagnostic = None.
Proof.
  unfold load_error_addr.
  pose proof (fresh_addr_unused (<[fresh_addr h := diagnostic]> h)) as Hu.
  split; [apply fresh_addr_nonnull |].
  apply lookup_insert_None in Hu as [Hu Hne]. split; [congruence | exact Hu].
Qed.

Lemma LoadDynamicLibrary_run P library_file error w :
  LoadDynamicLibrary P library_file error w =
    let w1 := add_event (EvUtilsLoadDynamicLibrary library_file) w in
    match os_load P library_file with
    | (handle, None) => (Returns (handle, error), w1)
    | (handle, Some diagnostic) =>
        match error with
        | None => (Returns (handle, None), w1)
        | Some _ =>
            let e := load_error_addr (heap w) diagnostic in
            (Returns (handle, Some e),
             set_heap (<[e := load_error_text library_file diagnostic]> (heap w))
               w1)
        end
    end.
Proof.
  unfold LoadDynamicLibrary, bind. rewrite Utils_LoadDynamicLibrary_run.
  destruct (os_load P library_file) as [handle [diagnostic|]]; cbn zeta.
  - cbn beta iota. rewrite fresh_addr_eqb. cbn [negb].
    set (w1 := add_event (EvUtilsLoadDynamicLibrary library_file) w).
    change (heap w) with (heap w1).
    destruct error as [e0|].
    + rewrite c_str_with_message.
      unfold OS_SCreate, malloc_string, free, ret, with_message, set_heap.
      cbn [heap co_task_mem_allocated trace].
      fold (load_error_addr (heap w1) diagnostic).
      destruct (load_error_addr_fresh (heap w1) diagnostic) as (Hn & Hne & Hu).
      rewrite fresh_addr_eqb.
      rewrite lookup_insert_ne, lookup_fresh by congruence.
      rewrite delete_insert_ne, delete_fresh by congruence.
      reflexivity.
    + unfold ret. rewrite free_with_message. reflexivity.
  - cbn. reflexivity.
Qed.

(** ** The scanner *)

Lemma force_load_ole32_run P w :
  force_load_ole32 P w = (Returns tt, after_force_load P w).
Proof.
  unfold force_load_ole32, after_force_load, bind, get_co_task_mem_allocated.
  destruct (co_task_mem_allocated w =? nullptr); [| reflexivity].
  unfold CoTaskMemAlloc, CoTaskMemFree, put_co_task_mem_allocated, bind, emit,
    ret, add_event, add_events, set_co_task_mem_allocated, sizeof_ptr.
  cbn. now rewrite <- app_assoc.
Qed.

(** While the index stays inside the array, the loop probes the modules
    from [i] on in array order and stops at the first hit. *)
Lemma probe_modules_run P symbol modules : forall remaining i w,
  (i + remaining <= length modules)%nat ->
  probe_modules P modules symbol i remaining w =
    let slice := take remaining (drop i modules) in
    (Returns (first_hit P symbol slice),
     add_events (probe_events symbol (probed P symbol slice)) w).
Proof.
  induction remaining as [|remaining IH]; intros i w Hlen.
  - cbn. unfold ret. now rewrite add_events_nil.
  - cbn [probe_modules].
    destruct (modules !! i) as [module|] eqn:Hi.
    2:{ apply lookup_ge_None in Hi. lia. }
    rewrite (drop_S _ _ _ Hi). cbn [take first_hit probed].
    unfold GetProcAddress, emit, ret, bind. cbn beta iota zeta.
    destruct (negb (os_get_proc_address P module symbol =? nullptr)).
    + reflexivity.
    + rewrite IH by lia. cbn zeta. rewrite add_event_events, add_events_app.
      reflexivity.
Qed.

(** An index that reaches the end of the array before a hit leaves
    defined behaviour. *)
Lemma probe_modules_overrun P symbol modules : forall remaining i w,
  (i <= length modules < i + remaining)%nat ->
  first_hit P symbol (drop i modules) = None ->
  fst (probe_modules P modules symbol i remaining w) = Undefined.
Proof.
  induction remaining as [|remaining IH]; intros i w Hlen Hnone; [lia |].
  cbn [probe_modules].
  destruct (modules !! i) as [module|] eqn:Hi; [| reflexivity].
  rewrite (drop_S _ _ _ Hi) in Hnone. cbn [first_hit] in Hnone.
  unfold GetProcAddress, emit, ret, bind. cbn beta iota zeta.
  destruct (negb (os_get_proc_address P module symbol =? nullptr));
    [discriminate |].
  apply IH; [| exact Hnone].
  apply lookup_lt_Some in Hi. lia.
Qed.

Lemma sizeof_ptr_pos P : 0 < sizeof_ptr P.
Proof. unfold sizeof_ptr. now destruct (word_size P). Qed.

Lemma heap_after_force_load P w : heap (after_force_load P w) = heap w.
Proof.
  unfold after_force_load. now destruct (co_task_mem_allocated w =? nullptr).
Qed.

(** The number of iterations that line 109 computes is the number of
    modules of the process. *)
Lemma loop_bound P (all : list Z) :
  Z.to_nat (Z.of_nat (length all) * sizeof_ptr P / sizeof_ptr P) = length all.
Proof.
  pose proof (sizeof_ptr_pos P). rewrite Z.div_mul by lia. apply Nat2Z.id.
Qed.

Lemma LookupSymbolInProcess_run P symbol error w :
  modules_fit P ->
  LookupSymbolInProcess P symbol error w =
    let w1 := add_event EvOpenProcess (after_force_load P w) in
    if os_open_process P =? nullptr then
      (Returns (nullptr, fresh_addr (heap w)), with_message open_failed_text w1)
    else
      let w2 := add_events (scan_events P symbol) w1 in
      match first_hit P symbol (snapshot P) with
      | Some result => (Returns (result, error), w2)
      | None =>
          (Returns (nullptr, fresh_addr (heap w)),
           with_message (not_found_text symbol) w2)
      end.
Proof.
  intros Hfit. unfold LookupSymbolInProcess, with_message.
  unfold bind at 1. rewrite force_load_ole32_run.
  unfold OpenProcess, emit, ret, bind at 1 2. cbn beta iota zeta.
  destruct (os_open_process P =? nullptr) eqn:Hcp.
  - unfold OS_SCreate, malloc_string, ret, bind. cbn beta iota zeta.
    cbn [heap add_event]. rewrite !heap_after_force_load. reflexivity.
  - unfold EnumProcessModules, emit, ret, bind at 1 2. cbn beta iota zeta.
    unfold modules_fit in Hfit. unfold scan_events, snapshot.
    destruct (os_process_modules P) as [all|].
    + cbn beta iota zeta. unfold bind at 1.
      rewrite loop_bound, (take_ge all) by exact Hfit.
      rewrite probe_modules_run by (cbn; lia).
      cbn zeta. rewrite drop_0, firstn_all.
      destruct (first_hit P symbol all) as [result|].
      * unfold CloseHandle, emit, ret, bind. cbn beta iota zeta.
        rewrite !add_event_events, !add_events_app. reflexivity.
      * unfold CloseHandle, OS_SCreate, malloc_string, emit, ret, bind.
        cbn beta iota zeta. cbn [heap add_event add_events].
        rewrite !heap_after_force_load.
        rewrite !add_event_events, !add_events_app. reflexivity.
    + cbn beta iota zeta.
      unfold CloseHandle, OS_SCreate, malloc_string, emit, ret, bind.
      cbn beta iota zeta. cbn [heap add_event add_events].
      rewrite !heap_after_force_load.
      rewrite !add_event_events, !add_events_app. reflexivity.
Qed.

(** Whatever the number of modules, the loop only probes, never throws,
    and a hit is not null. *)
Lemma probe_modules_general P symbol modules : forall remaining i w,
  exists evs,
    scan_only evs /\
    snd (probe_modules P modules symbol i remaining w) = add_events evs w /\
    match fst (probe_modules P modules symbol i remaining w) with
    | Returns (Some result) => result <> nullptr
    | Returns None | Undefined => True
    | Throws _ => False
    end.
Proof.
  induction remaining as [|remaining IH]; intros i w.
  - exists []. cbn. rewrite add_events_nil. repeat split. constructor.
  - cbn [probe_modules].
    destruct (modules !! i) as [module|].
    2:{ exists []. cbn. rewrite add_events_nil. repeat split. constructor. }
    unfold GetProcAddress, emit, ret, bind. cbn beta iota zeta.
    destruct (os_get_proc_address P module symbol =? nullptr) eqn:Hr; cbn [negb].
    + destruct (IH (S i) (add_event (EvGetProcAddress module symbol) w))
        as (evs & Hevs & Hw & Ho).
      exists (EvGetProcAddress module symbol :: evs). split; [| split].
      * constructor; [reflexivity | exact Hevs].
      * rewrite Hw, add_event_events, add_events_app. reflexivity.
      * exact Ho.
    + exists [EvGetProcAddress module symbol]. split; [| split].
      * repeat constructor.
      * reflexivity.
      * cbn. now apply Z.eqb_neq.
Qed.

Ltac same_events :=
  rewrite ?add_event_events, ?add_events_app; cbn [app];
  rewrite <- ?app_assoc; cbn [app]; reflexivity.

(** The shape of every run of the scanner: after the forced load it makes
    scan calls only; it returns a hit and leaves [*error] alone, or
    returns null with a fresh message in [*error], or runs off the
    array. *)
Lemma LookupSymbolInProcess_general P symbol error w :
  exists evs,
    scan_only evs /\
    let w1 := add_events evs (after_force_load P w) in
    match LookupSymbolInProcess P symbol error w with
    | (Returns (result, error'), w') =>
        (result <> nullptr /\ error' = error /\ w' = w1) \/
        (result = nullptr /\ error' = fresh_addr (heap w) /\
         exists text,
           text = (if os_open_process P =? nullptr then open_failed_text
                   else not_found_text symbol) /\
           w' = with_message text w1)
    | (Undefined, w') => w' = w1
    | (Throws _, _) => False
    end.
Proof.
  unfold LookupSymbolInProcess, with_message.
  unfold bind at 1. rewrite force_load_ole32_run.
  unfold OpenProcess, emit, ret, bind at 1 2. cbn beta iota zeta.
  set (w0 := after_force_load P w).
  assert (Hh : heap w0 = heap w) by apply heap_after_force_load.
  destruct (os_open_process P =? nullptr) eqn:Hcp.
  - exists [EvOpenProcess]. split; [repeat constructor |].
    unfold OS_SCreate, malloc_string, ret, bind. cbn beta iota zeta.
    right. cbn [heap add_event add_events]. rewrite Hh.
    repeat split. now exists open_failed_text.
  - unfold EnumProcessModules, emit, ret, bind at 1 2. cbn beta iota zeta.
    destruct (os_process_modules P) as [all|]; cbn beta iota zeta.
    + unfold bind at 1.
      set (start := add_event (EvEnumProcessModules (os_open_process P))
                      (add_event EvOpenProcess w0)).
      destruct (probe_modules_general P symbol (take modules_capacity all)
                  (Z.to_nat (Z.of_nat (length all) * sizeof_ptr P / sizeof_ptr P))
                  0%nat start) as (evs & Hevs & Hw & Ho).
      destruct (probe_modules P (take modules_capacity all) symbol 0
                  (Z.to_nat (Z.of_nat (length all) * sizeof_ptr P / sizeof_ptr P))
                  start) as [[[result|] | msg |] w'] eqn:Hrun;
        cbn [fst snd] in Hw, Ho; subst w'.
      * exists ([EvOpenProcess; EvEnumProcessModules (os_open_process P)]
                ++ evs ++ [EvCloseHandle (os_open_process P)]).
        split.
        { apply Forall_app; split; [repeat constructor |].
          apply Forall_app; split; [exact Hevs | repeat constructor]. }
        unfold CloseHandle, emit, ret, bind. cbn beta iota zeta.
        left. repeat split; [exact Ho |]. unfold start.
        same_events.
      * exists ([EvOpenProcess; EvEnumProcessModules (os_open_process P)]
                ++ evs ++ [EvCloseHandle (os_open_process P)]).
        split.
        { apply Forall_app; split; [repeat constructor |].
          apply Forall_app; split; [exact Hevs | repeat constructor]. }
        unfold CloseHandle, OS_SCreate, malloc_string, emit, ret, bind.
        cbn beta iota zeta. right. unfold start.
        cbn [heap add_event add_events]. rewrite Hh. repeat split.
        exists (not_found_text symbol). split; [reflexivity |].
        rewrite !add_event_events, !add_events_app.
        cbn [heap add_events]. rewrite ?Hh. same_events.
      * destruct Ho.
      * exists ([EvOpenProcess; EvEnumProcessModules (os_open_process P)]
                ++ evs).
        split; [apply Forall_app; split; [repeat constructor | exact Hevs] |].
        unfold start. same_events.
    + exists [EvOpenProcess; EvEnumProcessModules (os_open_process P);
              EvCloseHandle (os_open_process P)].
      split; [repeat constructor |].
      unfold CloseHandle, OS_SCreate, malloc_string, emit, ret, bind.
      cbn beta iota zeta. right. cbn [heap add_event add_events]. rewrite Hh.
      repeat split. exists (not_found_text symbol). split; [reflexivity |].
      same_events.
Qed.

(** ** The sample hosts keep the contracts *)

Lemma sample_load_error_means_null P :
  os_load P = sample_load -> load_error_means_null P.
Proof.
  intros HP [f|] handle diagnostic; rewrite HP; cbn; [| discriminate].
  destruct (String.eqb f "libfoo"); congruence.
Qed.

Lemma sample_load_success_means_handle P :
  os_load P = sample_load -> load_success_means_handle P.
Proof.
  intros HP [f|] handle; rewrite HP; cbn.
  - destruct (String.eqb f "libfoo"); [| discriminate].
    intros [= <-]. discriminate.
  - intros [= <-]. discriminate.
Qed.

Lemma sample_resolve_error_means_null P :
  os_resolve P = sample_resolve -> resolve_error_means_null P.
Proof.
  intros HP handle symbol result diagnostic. rewrite HP. unfold sample_resolve.
  destruct ((handle =? 4096) && String.eqb symbol "add_ints"); [discriminate |].
  destruct (String.eqb symbol "puts"); congruence.
Qed.

Lemma sample_resolve_success_means_address P :
  os_resolve P = sample_resolve -> resolve_success_means_address P.
Proof.
  intros HP handle symbol result. rewrite HP. unfold sample_resolve.
  destruct ((handle =? 4096) && String.eqb symbol "add_ints").
  { intros [= <-]. discriminate. }
  destruct (String.eqb symbol "puts"); [| discriminate].
  intros [= <-]. discriminate.
Qed.

(** ** No pointer together with an error *)

Lemma not_both_null_result error : not_both nullptr error.
Proof. split; [intros H; now destruct H | reflexivity]. Qed.

Lemma not_both_null_error result : not_both result nullptr.
Proof. split; [reflexivity | intros H; now destruct H]. Qed.

(** The scanner, with [*error] null on entry. *)
Lemma LookupSymbolInProcess_not_both P symbol w :
  match LookupSymbolInProcess P symbol nullptr w with
  | (Returns (result, error), _) =>
      not_both result error /\ (result = nullptr -> error <> nullptr)
  | (Undefined, _) => ~ modules_fit P
  | (Throws _, _) => False
  end.
Proof.
  destruct (LookupSymbolInProcess_general P symbol nullptr w)
    as (evs & _ & Hshape).
  destruct (LookupSymbolInProcess P symbol nullptr w)
    as [[[result error] | msg |] w'] eqn:Hrun; cbn zeta in Hshape.
  - destruct Hshape as [(Hr & -> & _) | (-> & -> & _)].
    + split; [apply not_both_null_error | tauto].
    + split; [apply not_both_null_result |].
      intros _. apply fresh_addr_nonnull.
  - exact Hshape.
  - intros Hfit. rewrite (LookupSymbolInProcess_run _ _ _ _ Hfit) in Hrun.
    cbn zeta in Hrun. destruct (os_open_process P =? nullptr); [discriminate |].
    destruct (first_hit P symbol (snapshot P)); discriminate.
Qed.

(** The platform lookup, with [*error] null on entry. *)
Lemma Utils_ResolveSymbolInDynamicLibrary_not_both P handle symbol w :
  resolve_error_means_null P ->
  exists result error w',
    Utils_ResolveSymbolInDynamicLibrary P handle symbol nullptr w
      = (Returns (result, error), w') /\
    not_both result error.
Proof.
  intros Hc. rewrite Utils_ResolveSymbolInDynamicLibrary_run. cbn zeta.
  destruct (os_resolve P handle symbol) as [result [diagnostic|]] eqn:Hos.
  - apply Hc in Hos as ->. do 3 eexists. split; [reflexivity |].
    apply not_both_null_result.
  - do 3 eexists. split; [reflexivity |]. apply not_both_null_error.
Qed.

(** C4: [LoadDynamicLibrary], [ResolveSymbol] and [LookupSymbolInProcess],
    called with a null error out-parameter, never throw and never give
    back a non-null pointer or handle together with a non-null error: when
    the result is not null the error is still null, and when the error is
    set the result is null.  The loader and the per-handle lookup of the
    platform layer are taken to report a failure with a null result, as
    the spec says of them; the loader always returns, the other two return
    whenever the modules of the process fit the array of the scanner. *)
Theorem resolution_never_pointer_and_error P :
  load_error_means_null P ->
  resolve_error_means_null P ->
  (forall library_file w,
     exists handle error w',
       LoadDynamicLibrary P library_file (Some nullptr) w
         = (Returns (handle, Some error), w') /\
       not_both handle error) /\
  (forall handle symbol w,
     match ResolveSymbol P handle symbol nullptr w with
     | (Returns (result, error), _) => not_both result error
     | (Undefined, _) => ~ modules_fit P
     | (Throws _, _) => False
     end) /\
  (forall symbol w,
     match LookupSymbolInProcess P symbol nullptr w with
     | (Returns (result, error), _) => not_both result error
     | (Undefined, _) => ~ modules_fit P
     | (Throws _, _) => False
     end).
Proof.
  intros Hload Hresolve. split; [| split].
  - intros library_file w. rewrite LoadDynamicLibrary_run. cbn zeta.
    destruct (os_load P library_file) as [handle [diagnostic|]] eqn:Hos.
    + apply Hload in Hos as ->. do 3 eexists. split; [reflexivity |].
      apply not_both_null_result.
    + do 3 eexists. split; [reflexivity |]. apply not_both_null_error.
  - intros handle symbol w. unfold ResolveSymbol.
    destruct (DART_HOST_OS_WINDOWS (host_os P)
              && (handle =? kWindowsDynamicLibraryProcessPtr)).
    + pose proof (LookupSymbolInProcess_not_both P symbol w) as H.
      destruct (LookupSymbolInProcess P symbol nullptr w)
        as [[[result error] | msg |] w']; tauto.
    + destruct (Utils_ResolveSymbolInDynamicLibrary_not_both P handle symbol w
                  Hresolve) as (result & error & w' & -> & H).
      exact H.
  - intros symbol w.
    pose proof (LookupSymbolInProcess_not_both P symbol w) as H.
    destruct (LookupSymbolInProcess P symbol nullptr w)
      as [[[result error] | msg |] w']; tauto.
Qed.

Lemma resolution_never_pointer_and_error_witness :
  (exists handle error w',
     LoadDynamicLibrary sample_windows (Some "nolib"%string) (Some nullptr)
       empty_world = (Returns (handle, Some error), w') /\
     not_both handle error) /\
  match ResolveSymbol sample_windows 4096 "add_ints" nullptr empty_world with
  | (Returns (result, error), _) => not_both result error
  | (Undefined, _) => ~ modules_fit sample_windows
  | (Throws _, _) => False
  end /\
  match LookupSymbolInProcess sample_windows "puts" nullptr empty_world with
  | (Returns (result, error), _) => not_both result error
  | (Undefined, _) => ~ modules_fit sample_windows
  | (Throws _, _) => False
  end.
Proof.
  pose proof (resolution_never_pointer_and_error sample_windows
                (sample_load_error_means_null sample_windows eq_refl)
                (sample_resolve_error_means_null sample_windows eq_refl))
    as (Hload & Hresolve & Hscan).
  exact (conj (Hload (Some "nolib"%string) empty_world)
           (conj (Hresolve 4096 "add_ints"%string empty_world)
                 (Hscan "puts"%string empty_world))).
Defined.

(** ** Existence checks *)

Lemma heap_add_events evs w : heap (add_events evs w) = heap w.
Proof. reflexivity. Qed.

(** Lines 149-153 after a lookup that left [*error] null. *)
Lemma discard_no_error (w : World) :
  (if negb (nullptr =? nullptr) then run free nullptr; ret false else ret true) w
  = (Returns true, w).
Proof. reflexivity. Qed.

(** Lines 149-153 after a lookup that put a fresh message in [*error]. *)
Lemma discard_fresh_error text (w : World) :
  (if negb (fresh_addr (heap w) =? nullptr)
   then run free (fresh_addr (heap w)); ret false
   else ret true) (with_message text w)
  = (Returns false, w).
Proof.
  rewrite fresh_addr_eqb. cbn [negb]. unfold bind.
  now rewrite free_with_message.
Qed.

(** On a platform whose per-handle lookup gives a non-null address
    whenever it reports no failure, [SymbolExists] returns true exactly
    when [ResolveSymbol] on the same handle and symbol gives a non-null
    address and leaves the error null, and in every outcome the heap of
    messages is afterwards what it was before. *)
Theorem SymbolExists_iff_resolve_succeeds P handle symbol w :
  resolve_success_means_address P ->
  heap (snd (SymbolExists P handle symbol w)) = heap w /\
  match ResolveSymbol P handle symbol nullptr w with
  | (Returns (result, error), _) =>
      exists found,
        fst (SymbolExists P handle symbol w) = Returns found /\
        (found = true <-> result <> nullptr /\ error = nullptr)
  | (Undefined, _) =>
      fst (SymbolExists P handle symbol w) = Undefined /\ ~ modules_fit P
  | (Throws _, _) => False
  end.
Proof.
  intros Hc. unfold SymbolExists, ResolveSymbol, kWindowsDynamicLibraryProcessPtr.
  assert (Hutils :
    heap (snd ((do '(_, error) <-
                  Utils_ResolveSymbolInDynamicLibrary P handle symbol nullptr;
                if negb (error =? nullptr) then run free error; ret false
                else ret true) w)) = heap w /\
    match Utils_ResolveSymbolInDynamicLibrary P handle symbol nullptr w with
    | (Returns (result, error), _) =>
        exists found,
          fst ((do '(_, error) <-
                  Utils_ResolveSymbolInDynamicLibrary P handle symbol nullptr;
                if negb (error =? nullptr) then run free error; ret false
                else ret true) w) = Returns found /\
          (found = true <-> result <> nullptr /\ error = nullptr)
    | (Undefined, _) => False
    | (Throws _, _) => False
    end).
  { unfold bind at 1 3. rewrite Utils_ResolveSymbolInDynamicLibrary_run.
    cbn zeta.
    destruct (os_resolve P handle symbol) as [result [diagnostic|]] eqn:Hos.
    - set (w1 := add_event _ w).
      change (heap w) with (heap w1). rewrite discard_fresh_error.
      split; [reflexivity |]. exists false. split; [reflexivity |].
      split; [discriminate |]. intros [_ Hnull].
      now destruct (fresh_addr_nonnull (heap w1)).
    - rewrite discard_no_error. split; [reflexivity |].
      exists true. split; [reflexivity |].
      split; [| reflexivity]. intros _. split; [| reflexivity].
      now apply (Hc handle symbol). }
  destruct (DART_HOST_OS_WINDOWS (host_os P)); cbn [negb andb].
  2:{ destruct Hutils as [Hheap Hres]. split; [exact Hheap |].
      destruct (Utils_ResolveSymbolInDynamicLibrary P handle symbol nullptr w)
        as [[[result error] | msg |] w']; tauto. }
  destruct (handle =? nullptr).
  2:{ destruct Hutils as [Hheap Hres]. split; [exact Hheap |].
      destruct (Utils_ResolveSymbolInDynamicLibrary P handle symbol nullptr w)
        as [[[result error] | msg |] w']; tauto. }
  clear Hutils. unfold bind.
  pose proof (LookupSymbolInProcess_not_both P symbol w) as Hfit.
  destruct (LookupSymbolInProcess_general P symbol nullptr w)
    as (evs & _ & Hshape).
  destruct (LookupSymbolInProcess P symbol nullptr w)
    as [[[result error] | msg |] w'] eqn:Hrun; cbn zeta in Hshape.
  - destruct Hshape as [(Hr & -> & ->) | (-> & -> & text & _ & ->)].
    + rewrite discard_no_error. cbn [fst snd]. rewrite heap_add_events.
      split; [apply heap_after_force_load |].
      exists true. split; [reflexivity |]. tauto.
    + set (w1 := add_events evs (after_force_load P w)).
      assert (Hh : heap w = heap w1)
        by (unfold w1; now rewrite heap_add_events, heap_after_force_load).
      rewrite Hh, discard_fresh_error. cbn [fst snd].
      split; [reflexivity |]. exists false. split; [reflexivity |].
      split; [discriminate |]. intros [Hr _]. now destruct Hr.
  - destruct Hshape.
  - subst w'. cbn [fst snd]. rewrite heap_add_events.
    split; [apply heap_after_force_load |]. split; [reflexivity | exact Hfit].
Qed.

Lemma SymbolExists_iff_resolve_succeeds_witness :
  heap (snd (SymbolExists sample_linux 4096 "add_ints" empty_world))
    = heap empty_world /\
  match ResolveSymbol sample_linux 4096 "add_ints" nullptr empty_world with
  | (Returns (result, error), _) =>
      exists found,
        fst (SymbolExists sample_linux 4096 "add_ints" empty_world)
          = Returns found /\
        (found = true <-> result <> nullptr /\ error = nullptr)
  | (Undefined, _) =>
      fst (SymbolExists sample_linux 4096 "add_ints" empty_world) = Undefined /\
      ~ modules_fit sample_linux
  | (Throws _, _) => False
  end.
Proof.
  exact (SymbolExists_iff_resolve_succeeds sample_linux 4096 "add_ints"
           empty_world
           (sample_resolve_success_means_address sample_linux eq_refl)).
Defined.

(** ** The orchestrator *)

Lemma resolve_error_text_mentions symbol asset text :
  mentions (resolve_error_text symbol asset text) symbol /\
  mentions (resolve_error_text symbol asset text) asset /\
  mentions (resolve_error_text symbol asset text) text.
Proof.
  unfold resolve_error_text. split; [| split].
  - apply mentions_middle.
  - exists ("Couldn't resolve native function '" +:+ symbol +:+ "' in '"),
      ("' : " +:+ text +:+ "." +:+ newline).
    now rewrite !append_assoc.
  - exists ("Couldn't resolve native function '" +:+ symbol +:+ "' in '"
            +:+ asset +:+ "' : "), ("." +:+ newline).
    now rewrite !append_assoc.
Qed.

(** Throwing with a message that was just created frees it. *)
Lemma ThrowFfiResolveError_fresh {A} symbol asset text w :
  @ThrowFfiResolveError A symbol asset (fresh_addr (heap w))
    (with_message text w)
  = (Throws (resolve_error_text symbol asset text), w).
Proof.
  unfold ThrowFfiResolveError, bind. rewrite c_str_with_message.
  now rewrite free_with_message.
Qed.

(** C1: when the library table has a library for the asset and that
    library has a resolver, [FfiResolve] calls the resolver once, with the
    symbol and the argument count it was given, and makes no other call
    apart from the table lookup: no platform lookup, no scan of the process
    modules, whatever those would find.  When the resolver's answer is not
    null, that answer is returned, as an [intptr_t] of the same bits; when
    it is null, an [ArgumentError] is thrown whose message has the symbol
    and the asset in it, and its C message is freed. *)
Theorem FfiResolve_uses_registered_resolver
    P asset symbol args_n lib resolver w :
  Word.in_range (word_size P) args_n ->
  vm_lookup_library P asset = Some lib ->
  ffi_native_resolver lib = Some resolver ->
  let answer := resolver symbol args_n in
  let w' := add_events [EvLookupLibrary asset; EvNativeResolver symbol args_n] w in
  if answer =? nullptr then
    exists msg,
      FfiResolve P asset symbol args_n w = (Throws msg, w') /\
      mentions msg symbol /\ mentions msg asset
  else
    exists result,
      FfiResolve P asset symbol args_n w = (Returns result, w') /\
      result = Word.to_intptr (word_size P) answer /\
      Word.to_uword (word_size P) result = Word.to_uword (word_size P) answer.
Proof.
  intros Hargs Hlib Hres. cbn zeta.
  unfold FfiResolve, GetFfiNativeResolver, emit, ret, bind.
  cbn beta iota zeta. rewrite Hlib. cbn beta iota zeta. rewrite Hres.
  unfold FfiResolveWithFfiNativeResolver, emit, bind.
  cbn beta iota zeta. rewrite (to_uword_to_intptr _ _ Hargs).
  set (w1 := add_event (EvNativeResolver symbol args_n)
               (add_event (EvLookupLibrary asset) w)).
  assert (Hw1 : w1 = add_events
                  [EvLookupLibrary asset; EvNativeResolver symbol args_n] w)
    by (unfold w1; same_events).
  destruct (resolver symbol args_n =? nullptr) eqn:Hanswer.
  - unfold OS_SCreate, malloc_string, ret, bind. cbn beta iota zeta.
    rewrite fresh_addr_eqb. cbn [negb].
    fold (with_message ("Couldn't resolve function: '" +:+ symbol +:+ "'") w1).
    rewrite ThrowFfiResolveError_fresh, Hw1.
    eexists. split; [reflexivity |].
    split; apply resolve_error_text_mentions.
  - unfold ret. cbn beta iota zeta. cbn [Z.eqb nullptr negb]. rewrite Hw1.
    eexists. split; [reflexivity |]. split; [reflexivity |].
    apply to_intptr_congruent.
Qed.

(** The asset's resolver does not know "puts"; the process does. *)
Lemma FfiResolve_uses_registered_resolver_witness :
  exists msg,
    FfiResolve sample_windows "my_asset" "puts" 1 empty_world
      = (Throws msg,
         add_events [EvLookupLibrary "my_asset"; EvNativeResolver "puts" 1]
           empty_world) /\
    mentions msg "puts" /\ mentions msg "my_asset".
Proof.
  assert (Hargs : Word.in_range (word_size sample_windows) 1)
    by (split; now vm_compute).
  exact (FfiResolve_uses_registered_resolver sample_windows
           "my_asset" "puts" 1 sample_library sample_resolver empty_world
           Hargs eq_refl eq_refl).
Defined.

Lemma FfiResolve_no_resolver P asset symbol args_n w :
  no_resolver P asset ->
  FfiResolve P asset symbol args_n w =
    (do answer <-
       ResolveSymbol P (GetHandle (Ffi_dl_processLibrary P)) symbol nullptr;
     throw_or_return P symbol asset answer)
      (add_event (EvLookupLibrary asset) w).
Proof.
  intros Hno.
  assert (Hnone :
    (do resolver <- GetFfiNativeResolver P asset; ret resolver) w
    = (Returns None, add_event (EvLookupLibrary asset) w)).
  { unfold GetFfiNativeResolver, emit, ret, bind. cbn beta iota zeta.
    destruct Hno as [-> | (lib & -> & ->)]; reflexivity. }
  unfold FfiResolve.
  unfold bind at 1. unfold bind at 1 in Hnone.
  destruct (GetFfiNativeResolver P asset w) as [[resolver | msg |] w1];
    unfold ret in Hnone; try discriminate.
  injection Hnone as -> ->.
  unfold ResolveSymbol, Ffi_dl_processLibrary, throw_or_return,
    kWindowsDynamicLibraryProcessPtr.
  destruct (host_os P); cbn [DART_HOST_OS_WINDOWS has_dlfcn negb andb GetHandle];
    try reflexivity.
Qed.

(** The error a lookup comes back with is null or the address of a
    message that was just created. *)
Lemma ResolveSymbol_error_shape P handle symbol w :
  match ResolveSymbol P handle symbol nullptr w with
  | (Returns (result, error), w') =>
      (error = nullptr) \/
      (exists text w0, error = fresh_addr (heap w0) /\ w' = with_message text w0)
  | (Undefined, _) => ~ modules_fit P
  | (Throws _, _) => False
  end.
Proof.
  unfold ResolveSymbol.
  destruct (DART_HOST_OS_WINDOWS (host_os P)
            && (handle =? kWindowsDynamicLibraryProcessPtr)).
  - pose proof (LookupSymbolInProcess_not_both P symbol w) as Hfit.
    destruct (LookupSymbolInProcess_general P symbol nullptr w)
      as (evs & _ & Hshape).
    destruct (LookupSymbolInProcess P symbol nullptr w)
      as [[[result error] | msg |] w']; cbn zeta in Hshape.
    + destruct Hshape as [(_ & -> & _) | (_ & -> & text & _ & ->)];
        [now left | right].
      exists text, (add_events evs (after_force_load P w)). split; [| reflexivity].
      now rewrite heap_add_events, heap_after_force_load.
    + exact Hshape.
    + exact Hfit.
  - rewrite Utils_ResolveSymbolInDynamicLibrary_run. cbn zeta.
    destruct (os_resolve P handle symbol) as [result [diagnostic|]].
    + right.
      exists diagnostic,
        (add_event (EvUtilsResolveSymbolInDynamicLibrary handle symbol) w).
      split; reflexivity.
    + now left.
Qed.

Lemma delete_message text w :
  set_heap (delete (fresh_addr (heap w)) (heap (with_message text w)))
    (with_message text w) = w.
Proof.
  unfold with_message, set_heap. cbn. rewrite delete_fresh. apply world_eta.
Qed.

(** C2: for an asset without a resolver, [FfiResolve] does, after the
    lookup in the library table, what [ResolveSymbol] does on the handle of
    [Ffi_dl_processLibrary]: when that returns an address and no error,
    [FfiResolve] returns that address (as an [intptr_t]) in the same world;
    when that sets an error, [FfiResolve] throws, with the message of that
    error in its own, and frees it; and [FfiResolve] is undefined exactly
    when that is. *)
Theorem FfiResolve_without_resolver_is_process_lookup
    P asset symbol args_n w :
  no_resolver P asset ->
  let handle := GetHandle (Ffi_dl_processLibrary P) in
  match ResolveSymbol P handle symbol nullptr
          (add_event (EvLookupLibrary asset) w) with
  | (Returns (result, error), w') =>
      if error =? nullptr then
        FfiResolve P asset symbol args_n w
          = (Returns (Word.to_intptr (word_size P) result), w')
      else
        exists text,
          message_at w' error text /\
          FfiResolve P asset symbol args_n w
            = (Throws (resolve_error_text symbol asset text),
               set_heap (delete error (heap w')) w')
  | (Undefined, w') => FfiResolve P asset symbol args_n w = (Undefined, w')
  | (Throws _, _) => False
  end.
Proof.
  intros Hno handle. rewrite (FfiResolve_no_resolver _ _ _ _ _ Hno).
  fold handle. unfold bind.
  pose proof (ResolveSymbol_error_shape P handle symbol
                (add_event (EvLookupLibrary asset) w)) as Hshape.
  destruct (ResolveSymbol P handle symbol nullptr
              (add_event (EvLookupLibrary asset) w))
    as [[[result error] | msg |] w'].
  - unfold throw_or_return.
    destruct Hshape as [-> | (text & w0 & -> & ->)].
    + reflexivity.
    + rewrite fresh_addr_eqb. cbn [negb]. exists text.
      split; [apply message_at_with_message |].
      rewrite ThrowFfiResolveError_fresh. now rewrite delete_message.
  - exact Hshape.
  - reflexivity.
Qed.

(** No library is loaded for "other"; the second module exports "puts". *)
Lemma FfiResolve_without_resolver_is_process_lookup_witness :
  fst (ResolveSymbol sample_windows
         (GetHandle (Ffi_dl_processLibrary sample_windows)) "puts" nullptr
         (add_event (EvLookupLibrary "other") empty_world))
    = Returns (12288, nullptr) /\
  fst (FfiResolve sample_windows "other" "puts" 1 empty_world) = Returns 12288.
Proof.
  split; [reflexivity |].
  exact (f_equal fst
           (FfiResolve_without_resolver_is_process_lookup sample_windows
              "other" "puts" 1 empty_world (or_introl eq_refl))).
Defined.

(** ** The whole-process sentinel *)

Lemma trace_after_force_load P w :
  trace (after_force_load P w) = trace w ++ force_load_events P w.
Proof.
  unfold after_force_load, force_load_events.
  destruct (co_task_mem_allocated w =? nullptr); [reflexivity |].
  now rewrite app_nil_r.
Qed.

(** What a scan leaves behind, whatever its outcome: the guard as the
    forced load left it, and a trace with the calls of the forced load
    followed by scan calls. *)
Lemma LookupSymbolInProcess_effects P symbol error w :
  exists evs,
    scan_only evs /\
    trace (snd (LookupSymbolInProcess P symbol error w))
      = trace w ++ force_load_events P w ++ evs /\
    co_task_mem_allocated (snd (LookupSymbolInProcess P symbol error w))
      = co_task_mem_allocated (after_force_load P w).
Proof.
  destruct (LookupSymbolInProcess_general P symbol error w)
    as (evs & Hevs & Hshape).
  exists evs. split; [exact Hevs |].
  rewrite app_assoc, <- trace_after_force_load.
  destruct (LookupSymbolInProcess P symbol error w)
    as [[[result error'] | msg |] w']; cbn zeta in Hshape; cbn [snd].
  - destruct Hshape as [(_ & _ & ->) | (_ & _ & text & _ & ->)]; now split.
  - destruct Hshape.
  - subst w'. now split.
Qed.

Lemma scan_only_no_platform_lookup evs :
  scan_only evs -> Forall (fun e => is_platform_lookup e = false) evs.
Proof.
  intros H. eapply Forall_impl; [exact H |].
  intros e He. now destruct e.
Qed.

Lemma force_load_no_platform_lookup P w :
  Forall (fun e => is_platform_lookup e = false) (force_load_events P w).
Proof.
  unfold force_load_events.
  destruct (co_task_mem_allocated w =? nullptr); repeat constructor.
Qed.

(** C5: on Windows, the host without a native search of the whole
    process, [ResolveSymbol] on the sentinel handle is the scanner
    [LookupSymbolInProcess]: the same outcome and the same world, with no
    call of the platform's per-handle lookup among the calls it makes.
    The sentinel is what [Ffi_dl_processLibrary] wraps there, and no
    handle that [LoadDynamicLibrary] returns without an error equals it,
    the platform loader being taken to give a non-null handle when it
    reports no failure, as the spec says of it. *)
Theorem ResolveSymbol_sentinel_is_scanner P symbol error w :
  host_os P = Windows ->
  load_success_means_handle P ->
  ResolveSymbol P kWindowsDynamicLibraryProcessPtr symbol error w
    = LookupSymbolInProcess P symbol error w /\
  (forall evs,
     emitted w (snd (ResolveSymbol P kWindowsDynamicLibraryProcessPtr
                       symbol error w)) evs ->
     Forall (fun e => is_platform_lookup e = false) evs) /\
  GetHandle (Ffi_dl_processLibrary P) = kWindowsDynamicLibraryProcessPtr /\
  (forall library_file w0 handle w',
     LoadDynamicLibrary P library_file (Some nullptr) w0
       = (Returns (handle, Some nullptr), w') ->
     handle <> kWindowsDynamicLibraryProcessPtr).
Proof.
  intros Hos Hload.
  assert (Hdelegate :
    ResolveSymbol P kWindowsDynamicLibraryProcessPtr symbol error w
    = LookupSymbolInProcess P symbol error w).
  { unfold ResolveSymbol. now rewrite Hos. }
  split; [exact Hdelegate |]. split; [| split].
  - intros evs Hemitted. rewrite Hdelegate in Hemitted.
    destruct (LookupSymbolInProcess_effects P symbol error w)
      as (scan & Hscan & Htrace & _).
    unfold emitted in Hemitted. rewrite Htrace in Hemitted.
    apply app_inv_head in Hemitted as <-.
    apply Forall_app. split.
    + apply force_load_no_platform_lookup.
    + now apply scan_only_no_platform_lookup.
  - unfold Ffi_dl_processLibrary. now rewrite Hos.
  - intros library_file w0 handle w'. rewrite LoadDynamicLibrary_run.
    cbn zeta.
    destruct (os_load P library_file) as [h [diagnostic|]] eqn:Hrun.
    + intros [= _ Herr _]. exfalso.
      now destruct (load_error_addr_fresh (heap w0) diagnostic) as (Hn & _).
    + intros [= <- _]. now apply (Hload library_file).
Qed.

Lemma ResolveSymbol_sentinel_is_scanner_witness :
  ResolveSymbol sample_windows kWindowsDynamicLibraryProcessPtr "puts"
    nullptr empty_world
  = LookupSymbolInProcess sample_windows "puts" nullptr empty_world /\
  Forall (fun e => is_platform_lookup e = false)
    [EvCoTaskMemAlloc 8; EvCoTaskMemFree 512; EvOpenProcess;
     EvEnumProcessModules 64; EvGetProcAddress 256 "puts";
     EvGetProcAddress 257 "puts"; EvCloseHandle 64] /\
  (4096 <> kWindowsDynamicLibraryProcessPtr).
Proof.
  pose proof (ResolveSymbol_sentinel_is_scanner sample_windows "puts" nullptr
                empty_world eq_refl
                (sample_load_success_means_handle sample_windows eq_refl))
    as (Hdelegate & Hevents & _ & Hvalid).
  split; [exact Hdelegate |]. split.
  - apply Hevents. reflexivity.
  - apply (Hvalid (Some "libfoo"%string) empty_world 4096
             (add_event (EvUtilsLoadDynamicLibrary (Some "libfoo"%string))
                empty_world)).
    reflexivity.
Defined.

(** ** The scan of the process modules *)

(** The modules probed are the leading modules of the snapshot. *)
Lemma probed_prefix P symbol modules :
  exists rest, modules = probed P symbol modules ++ rest.
Proof.
  induction modules as [|module modules [rest IH]]; [now exists [] |].
  cbn [probed].
  destruct (negb (os_get_proc_address P module symbol =? nullptr)).
  - now exists modules.
  - exists rest. cbn [app]. now f_equal.
Qed.

(** A hit is the answer of the first module, in list order, whose answer
    is not null; every module before it was probed and answered null. *)
Lemma first_hit_Some P symbol modules result :
  first_hit P symbol modules = Some result <->
  exists before module after,
    modules = before ++ module :: after /\
    Forall (fun m => os_get_proc_address P m symbol = nullptr) before /\
    os_get_proc_address P module symbol = result /\
    result <> nullptr /\
    probed P symbol modules = before ++ [module].
Proof.
  induction modules as [|m modules IH]; cbn [first_hit probed].
  - split; [discriminate |].
    intros (before & module & after & H & _). now destruct before.
  - destruct (os_get_proc_address P m symbol =? nullptr) eqn:Hm; cbn [negb].
    + apply Z.eqb_eq in Hm. rewrite IH. split.
      * intros (before & module & after & -> & Hb & Hr & Hn & Hp).
        exists (m :: before), module, after.
        repeat split; try assumption; [now constructor | cbn; now f_equal].
      * intros (before & module & after & Heq & Hb & Hr & Hn & Hp).
        destruct before as [|b before]; cbn in Heq; injection Heq as -> ->.
        { congruence. }
        exists before, module, after. inversion Hb; subst.
        cbn in Hp. injection Hp as Hp. now repeat split.
    + apply Z.eqb_neq in Hm. split.
      * intros [= <-]. exists [], m, modules. now repeat split.
      * intros (before & module & after & Heq & Hb & Hr & Hn & Hp).
        destruct before as [|b before]; cbn in Heq; injection Heq as -> ->.
        { now rewrite Hr. }
        inversion Hb; subst. congruence.
Qed.

(** No hit: every module was probed, in list order, and answered null. *)
Lemma first_hit_None P symbol modules :
  first_hit P symbol modules = None <->
  Forall (fun m => os_get_proc_address P m symbol = nullptr) modules /\
  probed P symbol modules = modules.
Proof.
  induction modules as [|m modules IH]; cbn [first_hit probed].
  - split; [now split | reflexivity].
  - destruct (os_get_proc_address P m symbol =? nullptr) eqn:Hm; cbn [negb].
    + apply Z.eqb_eq in Hm. rewrite IH. split.
      * intros [Hall Hp]. split; [now constructor | now f_equal].
      * intros [Hall Hp]. inversion Hall; subst. injection Hp as Hp.
        now split.
    + apply Z.eqb_neq in Hm. split; [discriminate |].
      intros [Hall _]. inversion Hall; subst. congruence.
Qed.

(** What the scanner does when the modules of the process fit its array:
    it probes the modules in the order of the enumeration and returns the
    first answer that is not null, leaving the error alone; with no such
    answer it returns null and sets the error to a message with the symbol
    in it. *)
Lemma LookupSymbolInProcess_scans_in_order P symbol w all :
  modules_fit P ->
  os_open_process P <> nullptr ->
  os_process_modules P = Some all ->
  let w1 := add_events
              (EvOpenProcess :: EvEnumProcessModules (os_open_process P) ::
               probe_events symbol (probed P symbol all) ++
               [EvCloseHandle (os_open_process P)])
              (after_force_load P w) in
  match first_hit P symbol all with
  | Some result =>
      LookupSymbolInProcess P symbol nullptr w = (Returns (result, nullptr), w1)
  | None =>
      exists w',
        LookupSymbolInProcess P symbol nullptr w
          = (Returns (nullptr, fresh_addr (heap w)), w') /\
        w' = with_message (not_found_text symbol) w1 /\
        message_at w' (fresh_addr (heap w)) (not_found_text symbol) /\
        mentions (not_found_text symbol) symbol
  end.
Proof.
  intros Hfit Hcp Hall. cbn zeta.
  rewrite (LookupSymbolInProcess_run _ _ _ _ Hfit). cbn zeta.
  apply Z.eqb_neq in Hcp. rewrite Hcp.
  unfold scan_events, snapshot. rewrite Hall.
  rewrite add_event_events, add_events_app. cbn [app].
  destruct (first_hit P symbol all) as [result|]; [reflexivity |].
  eexists. split; [reflexivity |]. split; [reflexivity |]. split.
  - split; [apply fresh_addr_nonnull |]. unfold with_message. cbn.
    rewrite heap_after_force_load. apply lookup_fresh.
  - apply mentions_middle.
Qed.

(** With more modules than the array holds and no hit among those that
    fit, the loop reads past the end of the array. *)
Lemma LookupSymbolInProcess_overrun P symbol error w all :
  os_open_process P <> nullptr ->
  os_process_modules P = Some all ->
  (modules_capacity < length all)%nat ->
  first_hit P symbol (take modules_capacity all) = None ->
  fst (LookupSymbolInProcess P symbol error w) = Undefined.
Proof.
  intros Hcp Hall Hlen Hnone. unfold LookupSymbolInProcess.
  unfold bind at 1. rewrite force_load_ole32_run.
  unfold OpenProcess, emit, ret, bind at 1 2. cbn beta iota zeta.
  apply Z.eqb_neq in Hcp. rewrite Hcp.
  unfold EnumProcessModules, emit, ret, bind at 1 2. cbn beta iota zeta.
  rewrite Hall. cbn beta iota zeta. unfold bind at 1. rewrite loop_bound.
  match goal with
  | |- fst (let (o, w') := probe_modules ?P ?ms ?s ?i ?n ?w0 in _) = _ =>
      pose proof (probe_modules_overrun P s ms n i w0) as Hover;
      destruct (probe_modules P ms s i n w0) as [o w']
  end.
  cbn [fst] in Hover. rewrite Hover; [reflexivity | |].
  - rewrite length_take. lia.
  - now rewrite drop_0.
Qed.

Lemma first_hit_nothing_exported P symbol modules :
  (forall m s, os_get_proc_address P m s = nullptr) ->
  first_hit P symbol modules = None.
Proof.
  intros Hnull. induction modules as [|m modules IH]; [reflexivity |].
  cbn [first_hit]. now rewrite Hnull.
Qed.

(** C6, at a process with 1025 modules: the enumeration reports 1025
    modules, the array holds 1024, none of them exports the symbol, and
    the loop goes on to index 1024, past the end of the array; the scan
    does not come back with null and an error. *)
Theorem LookupSymbolInProcess_reads_past_modules :
  fst (LookupSymbolInProcess crowded_windows "missing_fn" nullptr empty_world)
    = Undefined /\
  (forall result error,
     fst (LookupSymbolInProcess crowded_windows "missing_fn" nullptr
            empty_world) <> Returns (result, error)).
Proof.
  assert (H : fst (LookupSymbolInProcess crowded_windows "missing_fn" nullptr
                     empty_world) = Undefined).
  { apply (LookupSymbolInProcess_overrun crowded_windows "missing_fn" nullptr
             empty_world (map Z.of_nat (seq 1 1025))).
    - discriminate.
    - reflexivity.
    - rewrite length_map, length_seq. unfold modules_capacity. lia.
    - now apply first_hit_nothing_exported. }
  split; [exact H |]. intros result error. rewrite H. discriminate.
Qed.

(** ** Failed opens *)

Lemma failing_loader_error_means_null :
  load_error_means_null failing_loader_linux.
Proof. intros library_file handle diagnostic [= <- _]. reflexivity. Qed.

(** C7 as the spec states it fails for the main executable: the loader
    fails, and the open comes back with no error at all. *)
Lemma failed_executable_open_has_no_error :
  ~ failed_open_reports_error failing_loader_linux None empty_world.
Proof.
  intros Hclaim.
  destruct (Hclaim nullptr "cannot open shared object file"%string eq_refl)
    as (error & text & w' & Hrun & _).
  unfold spec_open in Hrun. rewrite LoadDynamicLibrary_run in Hrun.
  cbn in Hrun. discriminate.
Qed.

(** The executable entry itself: a library around the null handle, no
    throw, no message left. *)
Lemma failed_executable_open_returns_library :
  Ffi_dl_executableLibrary failing_loader_linux empty_world
  = (Returns (DynamicLibrary_New nullptr),
     add_event (EvUtilsLoadDynamicLibrary None) empty_world).
Proof. reflexivity. Qed.

Lemma load_error_text_mentions library_file diagnostic :
  mentions (load_error_text library_file diagnostic) diagnostic /\
  mentions (load_error_text library_file diagnostic)
    (match library_file with Some f => f | None => "<process>" end).
Proof.
  unfold load_error_text. split.
  - exists ("Failed to load dynamic library '" +:+
            (match library_file with Some f => f | None => "<process>" end)
            +:+ "': "), EmptyString.
    now rewrite append_nil_r, !append_assoc.
  - apply mentions_middle.
Qed.

(** Reading and freeing a message at an address that was free before. *)
Lemma consume_message (e : Z) text w :
  e <> nullptr ->
  heap w !! e = None ->
  (do msg <- c_str e; run free e; throw msg)
    (set_heap (<[e := text]> (heap w)) w)
  = (@Throws DynamicLibrary text, w).
Proof.
  intros Hn Hfree. unfold c_str, bind, set_heap.
  cbn [heap co_task_mem_allocated trace].
  rewrite lookup_insert_eq. unfold free, throw.
  cbn [heap co_task_mem_allocated trace].
  apply Z.eqb_neq in Hn. rewrite Hn.
  rewrite lookup_insert_eq, delete_insert_eq, delete_id by exact Hfree.
  unfold set_heap. cbn [heap co_task_mem_allocated trace].
  now rewrite world_eta.
Qed.

(** C7, amended: a failed open that is given an error out-parameter,
    which is how [Ffi_dl_open] opens a path, comes back with a null handle
    and a non-null error; the text of the error has the diagnostic of the
    platform in it and the path (or [<process>] for a null path), and
    [Ffi_dl_open] throws that text and frees it.  A failed open without
    an error out-parameter, which is how [Ffi_dl_executableLibrary] asks
    for the main executable, comes back with the null handle alone: the
    diagnostic is freed, no error is made, and the entry returns a
    library around the null handle.  The platform loader is taken to
    report a failure with a null handle, as the spec says of it. *)
Theorem failed_open_error_when_asked_for P library_file handle diagnostic w :
  load_error_means_null P ->
  os_load P library_file = (handle, Some diagnostic) ->
  let text := load_error_text library_file diagnostic in
  let w1 := add_event (EvUtilsLoadDynamicLibrary library_file) w in
  (exists error,
     LoadDynamicLibrary P library_file (Some nullptr) w
       = (Returns (nullptr, Some error),
          set_heap (<[error := text]> (heap w)) w1) /\
     error <> nullptr /\
     heap w !! error = None /\
     mentions text diagnostic /\
     mentions text
       (match library_file with Some f => f | None => "<process>" end)) /\
  (forall lib_path,
     library_file = Some lib_path ->
     Ffi_dl_open P lib_path w = (Throws text, w1) /\
     mentions text lib_path) /\
  LoadDynamicLibrary P library_file None w = (Returns (nullptr, None), w1) /\
  (library_file = None ->
   Ffi_dl_executableLibrary P w = (Returns (DynamicLibrary_New nullptr), w1)).
Proof.
  intros Hc Hos text w1.
  pose proof (Hc _ _ _ Hos) as ->.
  destruct (load_error_addr_fresh (heap w) diagnostic) as (Hn & _ & Hfree).
  assert (Hasked :
    LoadDynamicLibrary P library_file (Some nullptr) w
    = (Returns (nullptr, Some (load_error_addr (heap w) diagnostic)),
       set_heap (<[load_error_addr (heap w) diagnostic := text]> (heap w)) w1)).
  { rewrite LoadDynamicLibrary_run, Hos. reflexivity. }
  assert (Hbare :
    LoadDynamicLibrary P library_file None w = (Returns (nullptr, None), w1)).
  { rewrite LoadDynamicLibrary_run, Hos. reflexivity. }
  split; [| split; [| split]].
  - exists (load_error_addr (heap w) diagnostic).
    split; [exact Hasked |]. split; [exact Hn |]. split; [exact Hfree |].
    apply load_error_text_mentions.
  - intros lib_path ->. split.
    + unfold Ffi_dl_open. unfold bind at 1. rewrite Hasked.
      apply Z.eqb_neq in Hn. rewrite Hn. cbn [negb].
      apply Z.eqb_neq in Hn.
      change (heap w) with (heap w1). now apply consume_message.
    + apply (load_error_text_mentions (Some lib_path) diagnostic).
  - exact Hbare.
  - intros ->. unfold Ffi_dl_executableLibrary, bind. now rewrite Hbare.
Qed.

Lemma failed_open_error_when_asked_for_witness :
  Ffi_dl_open failing_loader_linux "libmissing.so" empty_world
  = (Throws
       "Failed to load dynamic library 'libmissing.so': cannot open shared object file",
     add_event (EvUtilsLoadDynamicLibrary (Some "libmissing.so"%string))
       empty_world) /\
  mentions
    "Failed to load dynamic library 'libmissing.so': cannot open shared object file"
    "libmissing.so".
Proof.
  exact (proj1 (proj2
           (failed_open_error_when_asked_for failing_loader_linux
              (Some "libmissing.so"%string) nullptr
              "cannot open shared object file" empty_world
              failing_loader_error_means_null eq_refl))
           "libmissing.so"%string eq_refl).
Defined.

(** ** The guard of the forced load *)

Lemma settled_quiet {A} (m : M A) :
  (forall w, co_task_mem_allocated (snd (m w)) = co_task_mem_allocated w /\
             trace (snd (m w)) = trace w) ->
  settled m.
Proof.
  intros H w _. destruct (H w) as [Hg Ht]. split; [exact Hg |].
  exists []. split; [now rewrite app_nil_r | constructor].
Qed.

Lemma settled_ret {A} (a : A) : settled (ret a).
Proof. now apply settled_quiet. Qed.

Lemma settled_throw {A} msg : settled (@throw A msg).
Proof. now apply settled_quiet. Qed.

Lemma settled_undefined {A} : settled (@undefined A).
Proof. now apply settled_quiet. Qed.

Lemma settled_malloc_string s : settled (malloc_string s).
Proof. now apply settled_quiet. Qed.

Lemma settled_free p : settled (free p).
Proof.
  apply settled_quiet. intros w. unfold free.
  destruct (p =? nullptr); [now split |].
  now destruct (heap w !! p).
Qed.

Lemma settled_c_str p : settled (c_str p).
Proof.
  apply settled_quiet. intros w. unfold c_str. now destruct (heap w !! p).
Qed.

Lemma settled_get : settled get_co_task_mem_allocated.
Proof. now apply settled_quiet. Qed.

Lemma settled_emit e : is_co_task_mem_call e = false -> settled (emit e).
Proof.
  intros He w _. split; [reflexivity |].
  exists [e]. split; [reflexivity | now constructor].
Qed.

Lemma settled_bind {A B} (m : M A) (k : A -> M B) :
  settled m -> (forall a, settled (k a)) -> settled (bind m k).
Proof.
  intros Hm Hk w Hw. destruct (Hm w Hw) as (Hg & evs & Ht & Hevs).
  unfold bind. destruct (m w) as [[a | msg |] w1]; cbn [snd] in *.
  - assert (Hw1 : initialized w1) by (unfold initialized; now rewrite Hg).
    destruct (Hk a w1 Hw1) as (Hg' & evs' & Ht' & Hevs').
    split; [congruence |].
    exists (evs ++ evs'). split.
    + now rewrite Ht', Ht, app_assoc.
    + now apply Forall_app.
  - split; [exact Hg |]. now exists evs.
  - split; [exact Hg |]. now exists evs.
Qed.

Create HintDb settled.
#[local] Hint Resolve settled_ret settled_throw settled_undefined
  settled_malloc_string settled_free settled_c_str settled_get : settled.

(** Take a computation apart along its binds and case distinctions. *)
Ltac settle :=
  repeat first
    [ progress (auto with settled)
    | apply settled_emit; reflexivity
    | apply settled_bind; [| intros ?]
    | match goal with
      | |- settled (match ?x with _ => _ end) => destruct x
      end ].

(** With the guard set, the forced load does nothing at all. *)
Lemma force_load_ole32_initialized P w :
  initialized w -> force_load_ole32 P w = (Returns tt, w).
Proof.
  intros Hw. rewrite force_load_ole32_run. unfold after_force_load.
  apply Z.eqb_neq in Hw. now rewrite Hw.
Qed.

Lemma settled_force_load_ole32 P : settled (force_load_ole32 P).
Proof.
  intros w Hw. rewrite (force_load_ole32_initialized P w Hw). cbn [snd].
  split; [reflexivity |]. exists []. split; [now rewrite app_nil_r | constructor].
Qed.

Lemma settled_Utils_LoadDynamicLibrary P library_file error :
  settled (Utils_LoadDynamicLibrary P library_file error).
Proof. unfold Utils_LoadDynamicLibrary. settle. Qed.

Lemma settled_Utils_ResolveSymbolInDynamicLibrary P handle symbol error :
  settled (Utils_ResolveSymbolInDynamicLibrary P handle symbol error).
Proof. unfold Utils_ResolveSymbolInDynamicLibrary. settle. Qed.

Lemma settled_probe_modules P modules symbol : forall remaining i,
  settled (probe_modules P modules symbol i remaining).
Proof.
  induction remaining as [|remaining IH]; intros i; cbn [probe_modules].
  - settle.
  - unfold GetProcAddress. settle.
Qed.

#[local] Hint Resolve settled_force_load_ole32
  settled_Utils_LoadDynamicLibrary settled_Utils_ResolveSymbolInDynamicLibrary
  settled_probe_modules : settled.

Lemma settled_LoadDynamicLibrary P library_file error :
  settled (LoadDynamicLibrary P library_file error).
Proof. unfold LoadDynamicLibrary, OS_SCreate. settle. Qed.

Lemma settled_LookupSymbolInProcess P symbol error :
  settled (LookupSymbolInProcess P symbol error).
Proof.
  unfold LookupSymbolInProcess, OpenProcess, EnumProcessModules, CloseHandle,
    OS_SCreate.
  settle.
Qed.

#[local] Hint Resolve settled_LoadDynamicLibrary
  settled_LookupSymbolInProcess : settled.

Lemma settled_ResolveSymbol P handle symbol error :
  settled (ResolveSymbol P handle symbol error).
Proof. unfold ResolveSymbol. settle. Qed.

Lemma settled_SymbolExists P handle symbol :
  settled (SymbolExists P handle symbol).
Proof. unfold SymbolExists. settle. Qed.

#[local] Hint Resolve settled_ResolveSymbol settled_SymbolExists : settled.

Lemma settled_Ffi_dl_open P lib_path : settled (Ffi_dl_open P lib_path).
Proof. unfold Ffi_dl_open. settle. Qed.

Lemma settled_Ffi_dl_executableLibrary P :
  settled (Ffi_dl_executableLibrary P).
Proof. unfold Ffi_dl_executableLibrary. settle. Qed.

Lemma settled_Ffi_dl_lookup P dlib symbol :
  settled (Ffi_dl_lookup P dlib symbol).
Proof. unfold Ffi_dl_lookup. settle. Qed.

Lemma settled_ThrowFfiResolveError {A} symbol asset error :
  settled (@ThrowFfiResolveError A symbol asset error).
Proof. unfold ThrowFfiResolveError. settle. Qed.

#[local] Hint Resolve settled_ThrowFfiResolveError : settled.

Lemma settled_FfiResolve P asset symbol args_n :
  settled (FfiResolve P asset symbol args_n).
Proof.
  unfold FfiResolve, GetFfiNativeResolver, FfiResolveWithFfiNativeResolver,
    OS_SCreate.
  settle.
Qed.

Lemma perform_settled P c w :
  initialized w ->
  co_task_mem_allocated (perform P c w) = co_task_mem_allocated w /\
  exists evs,
    trace (perform P c w) = trace w ++ evs /\ no_co_task_mem_calls evs.
Proof.
  intros Hw. destruct c; cbn [perform].
  - now apply settled_Ffi_dl_open.
  - now apply settled_Ffi_dl_executableLibrary.
  - now apply settled_Ffi_dl_lookup.
  - now apply settled_SymbolExists.
  - now apply settled_FfiResolve.
  - now apply settled_LookupSymbolInProcess.
Qed.

Lemma perform_all_settled calls : forall w,
  initialized w ->
  co_task_mem_allocated (perform_all calls w) = co_task_mem_allocated w /\
  exists evs,
    trace (perform_all calls w) = trace w ++ evs /\ no_co_task_mem_calls evs.
Proof.
  induction calls as [|[P c] calls IH]; intros w Hw; cbn [perform_all fold_left].
  - split; [reflexivity |]. exists []. split; [now rewrite app_nil_r | constructor].
  - destruct (perform_settled P c w Hw) as (Hg & evs & Ht & Hevs).
    cbn [fst snd].
    assert (Hw1 : initialized (perform P c w))
      by (unfold initialized; now rewrite Hg).
    destruct (IH _ Hw1) as (Hg' & evs' & Ht' & Hevs').
    split; [unfold perform_all in Hg'; congruence |].
    exists (evs ++ evs'). split.
    + unfold perform_all in Ht'. now rewrite Ht', Ht, app_assoc.
    + now apply Forall_app.
Qed.

(** The guard after a scan: what [CoTaskMemAlloc] answered when the guard
    was null, and the old guard otherwise. *)
Lemma guard_after_scan P symbol error w :
  co_task_mem_allocated (snd (LookupSymbolInProcess P symbol error w))
  = if co_task_mem_allocated w =? nullptr then os_co_task_mem_alloc P
    else co_task_mem_allocated w.
Proof.
  destruct (LookupSymbolInProcess_effects P symbol error w)
    as (evs & _ & _ & ->).
  unfold after_force_load. now destruct (co_task_mem_allocated w =? nullptr).
Qed.

(** C8: the guard [co_task_mem_allocated] has the two states null and
    non-null, and only the forced load at the head of a scan writes it.
    A scan that starts with the guard null leaves in it what
    [CoTaskMemAlloc] answered.  With the guard non-null the forced load
    does nothing, so doing it again is harmless, and doing it twice on the
    same host leaves the guard that doing it once leaves.  From a world
    with the guard non-null, no sequence of calls of the entries of this
    file and of scans, on whatever hosts, changes the guard, and none of
    them calls [CoTaskMemAlloc] or [CoTaskMemFree]. *)
Theorem forced_load_guard_is_one_way :
  (forall P symbol error w,
     co_task_mem_allocated w = nullptr ->
     co_task_mem_allocated (snd (LookupSymbolInProcess P symbol error w))
       = os_co_task_mem_alloc P) /\
  (forall P w, initialized w -> force_load_ole32 P w = (Returns tt, w)) /\
  (forall P w,
     co_task_mem_allocated
       (snd (force_load_ole32 P (snd (force_load_ole32 P w))))
     = co_task_mem_allocated (snd (force_load_ole32 P w))) /\
  (forall calls w,
     initialized w ->
     initialized (perform_all calls w) /\
     co_task_mem_allocated (perform_all calls w) = co_task_mem_allocated w) /\
  (forall calls w,
     initialized w ->
     exists evs,
       emitted w (perform_all calls w) evs /\ no_co_task_mem_calls evs).
Proof.
  split; [| split; [| split; [| split]]].
  - intros P symbol error w Hnull. rewrite guard_after_scan.
    now rewrite Hnull.
  - apply force_load_ole32_initialized.
  - intros P w. rewrite !force_load_ole32_run. cbn [snd].
    unfold after_force_load.
    destruct (co_task_mem_allocated w =? nullptr) eqn:Hw.
    + cbn [co_task_mem_allocated add_events set_co_task_mem_allocated].
      now destruct (os_co_task_mem_alloc P =? nullptr).
    + now rewrite Hw.
  - intros calls w Hw. destruct (perform_all_settled calls w Hw) as (Hg & _).
    split; [| exact Hg]. unfold initialized. now rewrite Hg.
  - intros calls w Hw. destruct (perform_all_settled calls w Hw) as (_ & Hevs).
    exact Hevs.
Qed.

(** A first scan sets the guard; a second scan and a resolution after it
    leave it and make no allocator call. *)
Lemma forced_load_guard_is_one_way_witness :
  let w1 := snd (LookupSymbolInProcess sample_windows "puts" nullptr
                   empty_world) in
  let later := [(sample_windows, CallScan "missing_fn");
                (crowded_windows, CallFfiResolve "other" "puts" 1)] in
  co_task_mem_allocated w1 = 512 /\
  co_task_mem_allocated (perform_all later w1) = 512 /\
  exists evs,
    emitted w1 (perform_all later w1) evs /\ no_co_task_mem_calls evs.
Proof.
  cbn zeta.
  destruct forced_load_guard_is_one_way as (Hfirst & _ & _ & Hkeep & Hquiet).
  assert (Hset : co_task_mem_allocated
                   (snd (LookupSymbolInProcess sample_windows "puts" nullptr
                           empty_world)) = 512)
    by exact (Hfirst sample_windows "puts"%string nullptr empty_world eq_refl).
  assert (Hinit : initialized
                    (snd (LookupSymbolInProcess sample_windows "puts" nullptr
                            empty_world)))
    by (unfold initialized; rewrite Hset; discriminate).
  split; [exact Hset |]. split.
  - etransitivity; [| exact Hset]. now apply Hkeep.
  - now apply Hquiet.
Defined.

(** ** Enumeration failure *)

Lemma not_found_text_distinct symbol : not_found_text symbol <> open_failed_text.
Proof. unfold not_found_text, open_failed_text. discriminate. Qed.

(** The error of a scan that returns null: the open-failure text when the
    process could not be opened, the not-found text otherwise. *)
Lemma LookupSymbolInProcess_error_text P symbol w result error :
  fst (LookupSymbolInProcess P symbol nullptr w) = Returns (result, error) ->
  error <> nullptr ->
  result = nullptr /\
  error = fresh_addr (heap w) /\
  message_at (snd (LookupSymbolInProcess P symbol nullptr w)) error
    (if os_open_process P =? nullptr then open_failed_text
     else not_found_text symbol).
Proof.
  intros Hrun Herr.
  destruct (LookupSymbolInProcess_general P symbol nullptr w)
    as (evs & _ & Hshape).
  destruct (LookupSymbolInProcess P symbol nullptr w)
    as [[[result' error'] | msg |] w']; cbn [fst snd] in *; try discriminate.
  injection Hrun as -> ->. cbn zeta in Hshape.
  destruct Hshape as [(_ & -> & _) | (-> & -> & text & -> & ->)].
  - now destruct Herr.
  - split; [reflexivity |]. split; [reflexivity |].
    set (w1 := add_events evs (after_force_load P w)).
    assert (Hh : heap w = heap w1)
      by (unfold w1; now rewrite heap_add_events, heap_after_force_load).
    rewrite Hh. apply message_at_with_message.
Qed.

(** C9: the scanner sets the open-failure text only when the handle of
    the current process could not be acquired.  With the handle acquired
    and [EnumProcessModules] failing it returns null with the not-found
    text for the symbol, and so it does when the enumeration succeeds and
    no module exports the symbol: in both cases the same null result, the
    same error address and the same heap of messages, so the returned
    error does not tell the two apart. *)
Theorem enumeration_failure_reads_as_absence P1 P2 symbol w all :
  os_open_process P1 <> nullptr ->
  os_process_modules P1 = None ->
  os_open_process P2 <> nullptr ->
  os_process_modules P2 = Some all ->
  (length all <= modules_capacity)%nat ->
  first_hit P2 symbol all = None ->
  let failed := LookupSymbolInProcess P1 symbol nullptr w in
  let absent := LookupSymbolInProcess P2 symbol nullptr w in
  let error := fresh_addr (heap w) in
  fst failed = Returns (nullptr, error) /\
  message_at (snd failed) error (not_found_text symbol) /\
  fst absent = fst failed /\
  heap (snd absent) = heap (snd failed) /\
  not_found_text symbol <> open_failed_text /\
  (forall P result e,
     fst (LookupSymbolInProcess P symbol nullptr w) = Returns (result, e) ->
     message_at (snd (LookupSymbolInProcess P symbol nullptr w)) e
       open_failed_text ->
     os_open_process P = nullptr) /\
  (forall P,
     os_open_process P = nullptr ->
     fst (LookupSymbolInProcess P symbol nullptr w) = Returns (nullptr, error) /\
     message_at (snd (LookupSymbolInProcess P symbol nullptr w)) error
       open_failed_text).
Proof.
  intros Hcp1 Hnone Hcp2 Hall Hlen Habsent. cbn zeta.
  assert (Hfit1 : modules_fit P1) by (unfold modules_fit; now rewrite Hnone).
  assert (Hfit2 : modules_fit P2) by (unfold modules_fit; now rewrite Hall).
  assert (Hfailed :
    LookupSymbolInProcess P1 symbol nullptr w
    = (Returns (nullptr, fresh_addr (heap w)),
       with_message (not_found_text symbol)
         (add_events (scan_events P1 symbol)
            (add_event EvOpenProcess (after_force_load P1 w))))).
  { rewrite (LookupSymbolInProcess_run _ _ _ _ Hfit1). cbn zeta.
    apply Z.eqb_neq in Hcp1. rewrite Hcp1.
    unfold snapshot. now rewrite Hnone. }
  assert (Habs :
    LookupSymbolInProcess P2 symbol nullptr w
    = (Returns (nullptr, fresh_addr (heap w)),
       with_message (not_found_text symbol)
         (add_events (scan_events P2 symbol)
            (add_event EvOpenProcess (after_force_load P2 w))))).
  { rewrite (LookupSymbolInProcess_run _ _ _ _ Hfit2). cbn zeta.
    apply Z.eqb_neq in Hcp2. rewrite Hcp2.
    unfold snapshot. rewrite Hall. now rewrite Habsent. }
  rewrite Hfailed, Habs. cbn [fst snd].
  split; [reflexivity |]. split; [| split; [reflexivity |]].
  { split; [apply fresh_addr_nonnull |]. unfold with_message. cbn.
    rewrite heap_after_force_load. apply lookup_fresh. }
  split.
  { unfold with_message. cbn. now rewrite !heap_after_force_load. }
  split; [apply not_found_text_distinct |]. split.
  - intros P result e Hrun [Hn Htext].
    destruct (LookupSymbolInProcess_error_text P symbol w result e Hrun Hn)
      as (_ & _ & _ & Htext').
    rewrite Htext in Htext'.
    destruct (os_open_process P =? nullptr) eqn:Hcp.
    + now apply Z.eqb_eq.
    + assert (Heq : open_failed_text = not_found_text symbol) by congruence.
      symmetry in Heq. now apply not_found_text_distinct in Heq.
  - intros P Hcp.
    assert (Hrun :
      LookupSymbolInProcess P symbol nullptr w
      = (Returns (nullptr, fresh_addr (heap w)),
         with_message open_failed_text
           (add_event EvOpenProcess (after_force_load P w)))).
    { unfold LookupSymbolInProcess, with_message.
      unfold bind at 1. rewrite force_load_ole32_run.
      unfold OpenProcess, emit, ret, bind at 1 2. cbn beta iota zeta.
      rewrite Hcp. cbn [Z.eqb nullptr].
      unfold OS_SCreate, malloc_string, ret, bind. cbn beta iota zeta.
      cbn [heap add_event]. now rewrite !heap_after_force_load. }
    rewrite Hrun. cbn [fst snd]. split; [reflexivity |].
    split; [apply fresh_addr_nonnull |]. unfold with_message. cbn.
    rewrite heap_after_force_load. apply lookup_fresh.
Qed.

(** The failed enumeration of [blind_windows] and the three modules of
    [sample_windows], none of which exports "missing_fn", give the same
    answer. *)
Lemma enumeration_failure_reads_as_absence_witness :
  fst (LookupSymbolInProcess sample_windows "missing_fn" nullptr empty_world)
  = fst (LookupSymbolInProcess blind_windows "missing_fn" nullptr empty_world)
  /\
  heap (snd (LookupSymbolInProcess sample_windows "missing_fn" nullptr
               empty_world))
  = heap (snd (LookupSymbolInProcess blind_windows "missing_fn" nullptr
                 empty_world)).
Proof.
  assert (Hcp : 64 <> nullptr) by discriminate.
  assert (Hlen : (length [256; 257; 258] <= modules_capacity)%nat)
    by (unfold modules_capacity; cbn [length]; lia).
  pose proof (enumeration_failure_reads_as_absence blind_windows
                sample_windows "missing_fn" empty_world [256; 257; 258]
                Hcp eq_refl Hcp eq_refl Hlen eq_refl)
    as (_ & _ & Hsame & Hheap & _).
  exact (conj Hsame Hheap).
Defined.

(** ** The handle as a number *)

Lemma half_modulus_double sz : Word.modulus sz = 2 * Word.half_modulus sz.
Proof. now destruct sz. Qed.

Lemma modulus_le_64 sz : Word.modulus sz <= 2 ^ 64.
Proof. destruct sz; unfold Word.modulus; cbn [Word.bits]; lia. Qed.

(** On a 64-bit target, and for a handle whose top bit is clear, the
    number is the handle. *)
Lemma Ffi_dl_getHandle_exact P handle :
  Word.in_range (word_size P) handle ->
  word_size P = Word.W64 \/ handle < Word.half_modulus (word_size P) ->
  Ffi_dl_getHandle P (DynamicLibrary_New handle) = handle.
Proof.
  intros Hrange Hcase.
  unfold Ffi_dl_getHandle, Word.to_intptr, Word.to_uint64. cbn [GetHandle].
  unfold Word.in_range in Hrange.
  pose proof (modulus_le_64 (word_size P)) as Hle.
  pose proof (half_modulus_double (word_size P)) as Hhalf.
  rewrite (Z.mod_small handle) by lia.
  destruct (handle <? Word.half_modulus (word_size P)) eqn:Hlow.
  - apply Z.mod_small. lia.
  - apply Z.ltb_ge in Hlow. destruct Hcase as [H64 | Hlt]; [| lia].
    rewrite H64 in *. unfold Word.modulus in *. cbn [Word.bits] in *.
    replace (handle - 2 ^ 64) with (handle + (-1) * 2 ^ 64) by lia.
    rewrite Z.mod_add by lia. apply Z.mod_small. lia.
Qed.

(** On a 32-bit target a handle whose top bit is set is sign-extended. *)
Lemma Ffi_dl_getHandle_sign_extended P handle :
  word_size P = Word.W32 ->
  2 ^ 31 <= handle < 2 ^ 32 ->
  Ffi_dl_getHandle P (DynamicLibrary_New handle) = handle + (2 ^ 64 - 2 ^ 32).
Proof.
  intros H32 Hrange.
  unfold Ffi_dl_getHandle, Word.to_intptr, Word.to_uint64. cbn [GetHandle].
  rewrite H32. unfold Word.modulus, Word.half_modulus. cbn [Word.bits].
  rewrite (Z.mod_small handle) by lia.
  replace (handle <? 2 ^ (32 - 1)) with false by (symmetry; apply Z.ltb_ge; lia).
  replace (handle - 2 ^ 32) with (handle + (2 ^ 64 - 2 ^ 32) + (-1) * 2 ^ 64)
    by lia.
  rewrite Z.mod_add by lia. apply Z.mod_small. lia.
Qed.

(** Where the sentinel of the whole process is the null pointer, the
    number of the process library is 0. *)
Lemma Ffi_dl_getHandle_process_library P :
  GetHandle (Ffi_dl_processLibrary P) = nullptr ->
  Ffi_dl_getHandle P (Ffi_dl_processLibrary P) = 0.
Proof.
  intros Hnull. unfold Ffi_dl_getHandle. rewrite Hnull, to_intptr_null.
  reflexivity.
Qed.

Lemma Ffi_dl_getHandle_process_library_windows P :
  host_os P = Windows -> Ffi_dl_getHandle P (Ffi_dl_processLibrary P) = 0.
Proof.
  intros Hos. apply Ffi_dl_getHandle_process_library.
  unfold Ffi_dl_processLibrary. now rewrite Hos.
Qed.

(** C10, at a 32-bit target and the handle 0x80000000: the handle is a
    well-formed pointer of the target, and the number that
    [Ffi_dl_getHandle] gives [Integer::NewFromUint64] is
    0xFFFFFFFF80000000, not the value of the handle: the cast to
    [intptr_t] of line 204 makes the conversion to [uint64_t] extend the
    sign. *)
Theorem Ffi_dl_getHandle_extends_sign_on_32_bit :
  let dlib := DynamicLibrary_New 2147483648 in
  Word.in_range (word_size linux_arm32) (GetHandle dlib) /\
  Ffi_dl_getHandle linux_arm32 dlib = 18446744071562067968 /\
  Ffi_dl_getHandle linux_arm32 dlib <> GetHandle dlib.
Proof.
  cbn zeta. split; [split; now vm_compute |].
  assert (H : Ffi_dl_getHandle linux_arm32 (DynamicLibrary_New 2147483648)
              = 18446744071562067968).
  { rewrite Ffi_dl_getHandle_sign_extended; [reflexivity | reflexivity | lia]. }
  split; [exact H |]. rewrite H. discriminate.
Qed.

(** * Further properties of the code *)

(** ** The scanner, in full *)

Lemma first_hit_app P symbol before module rest :
  Forall (fun m => os_get_proc_address P m symbol = nullptr) before ->
  os_get_proc_address P module symbol <> nullptr ->
  first_hit P symbol (before ++ module :: rest)
    = Some (os_get_proc_address P module symbol) /\
  probed P symbol (before ++ module :: rest) = before ++ [module].
Proof.
  intros Hbefore Hhit. apply Z.eqb_neq in Hhit.
  induction Hbefore as [|m before Hm _ IH]; cbn [app first_hit probed].
  - now rewrite Hhit.
  - rewrite Hm. cbn [Z.eqb nullptr negb]. destruct IH as [-> ->]. now split.
Qed.

(** A hit among the entries from [i] on is returned, however far the loop
    bound reaches. *)
Lemma probe_modules_hit P symbol modules : forall remaining i w result,
  first_hit P symbol (take remaining (drop i modules)) = Some result ->
  probe_modules P modules symbol i remaining w =
    (Returns (Some result),
     add_events
       (probe_events symbol
          (probed P symbol (take remaining (drop i modules)))) w).
Proof.
  induction remaining as [|remaining IH]; intros i w result Hhit;
    [discriminate |].
  cbn [probe_modules].
  destruct (modules !! i) as [module|] eqn:Hi.
  2:{ apply lookup_ge_None in Hi. rewrite drop_ge in Hhit by exact Hi.
      discriminate. }
  rewrite (drop_S _ _ _ Hi) in Hhit |- *. cbn [take first_hit probed] in Hhit |- *.
  unfold GetProcAddress, emit, ret, bind. cbn beta iota zeta.
  destruct (negb (os_get_proc_address P module symbol =? nullptr)).
  - now injection Hhit as ->.
  - rewrite (IH _ _ _ Hhit). now rewrite add_event_events, add_events_app.
Qed.

(** The world in which the loop leaves the array: every entry from [i] on
    was probed. *)
Lemma probe_modules_overrun_world P symbol modules : forall remaining i w,
  (i <= length modules < i + remaining)%nat ->
  first_hit P symbol (drop i modules) = None ->
  probe_modules P modules symbol i remaining w =
    (Undefined, add_events (probe_events symbol (drop i modules)) w).
Proof.
  induction remaining as [|remaining IH]; intros i w Hlen Hnone; [lia |].
  cbn [probe_modules].
  destruct (modules !! i) as [module|] eqn:Hi.
  2:{ apply lookup_ge_None in Hi. rewrite drop_ge by exact Hi.
      cbn. unfold undefined. now rewrite add_events_nil. }
  rewrite (drop_S _ _ _ Hi) in Hnone |- *. cbn [first_hit] in Hnone.
  unfold GetProcAddress, emit, ret, bind. cbn beta iota zeta.
  destruct (negb (os_get_proc_address P module symbol =? nullptr));
    [discriminate |].
  rewrite IH; [| apply lookup_lt_Some in Hi; lia | exact Hnone].
  cbn [probe_events map]. now rewrite add_event_events, add_events_app.
Qed.

(** The whole of [LookupSymbolInProcess], without a condition on the
    number of modules. *)
Lemma LookupSymbolInProcess_cases P symbol error w :
  LookupSymbolInProcess P symbol error w =
    let cp := os_open_process P in
    let w1 := add_event EvOpenProcess (after_force_load P w) in
    if cp =? nullptr then
      (Returns (nullptr, fresh_addr (heap w)), with_message open_failed_text w1)
    else
      match os_process_modules P with
      | None =>
          (Returns (nullptr, fresh_addr (heap w)),
           with_message (not_found_text symbol)
             (add_events [EvEnumProcessModules cp; EvCloseHandle cp] w1))
      | Some all =>
          let array := take modules_capacity all in
          match first_hit P symbol array with
          | Some result =>
              (Returns (result, error),
               add_events
                 (EvEnumProcessModules cp ::
                  probe_events symbol (probed P symbol array) ++
                  [EvCloseHandle cp]) w1)
          | None =>
              if (length all <=? modules_capacity)%nat then
                (Returns (nullptr, fresh_addr (heap w)),
                 with_message (not_found_text symbol)
                   (add_events
                      (EvEnumProcessModules cp :: probe_events symbol array ++
                       [EvCloseHandle cp]) w1))
              else
                (Undefined,
                 add_events
                   (EvEnumProcessModules cp :: probe_events symbol array) w1)
          end
      end.
Proof.
  cbn zeta. unfold LookupSymbolInProcess, with_message.
  unfold bind at 1. rewrite force_load_ole32_run.
  unfold OpenProcess, emit, ret, bind at 1 2. cbn beta iota zeta.
  destruct (os_open_process P =? nullptr) eqn:Hcp.
  { unfold OS_SCreate, malloc_string, ret, bind. cbn beta iota zeta.
    cbn [heap add_event]. now rewrite !heap_after_force_load. }
  unfold EnumProcessModules, emit, ret, bind at 1 2. cbn beta iota zeta.
  destruct (os_process_modules P) as [all|]; cbn beta iota zeta.
  2:{ unfold CloseHandle, OS_SCreate, malloc_string, emit, ret, bind.
      cbn beta iota zeta. cbn [heap add_event add_events].
      rewrite !heap_after_force_load. do 2 f_equal. same_events. }
  unfold bind at 1. rewrite loop_bound.
  set (array := take modules_capacity all).
  assert (Hslice : take (length all) (drop 0 array) = array).
  { rewrite drop_0. apply take_ge. unfold array. rewrite length_take. lia. }
  destruct (first_hit P symbol array) as [result|] eqn:Hhit.
  - rewrite (probe_modules_hit P symbol array (length all) 0%nat _ result)
      by now rewrite Hslice.
    rewrite Hslice.
    unfold CloseHandle, emit, ret, bind. cbn beta iota zeta.
    f_equal. same_events.
  - destruct (length all <=? modules_capacity)%nat eqn:Hfit.
    + apply Nat.leb_le in Hfit.
      assert (Harray : array = all) by (unfold array; now apply take_ge).
      rewrite probe_modules_run by (rewrite Harray; cbn; lia).
      cbn zeta. rewrite Hslice, Hhit.
      apply first_hit_None in Hhit as [_ ->].
      unfold CloseHandle, OS_SCreate, malloc_string, emit, ret, bind.
      cbn beta iota zeta. cbn [heap add_event add_events].
      rewrite !heap_after_force_load. f_equal.
      rewrite !add_event_events, !add_events_app.
      cbn [heap add_events]. rewrite ?heap_after_force_load.
      unfold set_heap, add_events. cbn [heap trace co_task_mem_allocated app].
      rewrite <- ?app_assoc. reflexivity.
    + apply Nat.leb_gt in Hfit.
      rewrite probe_modules_overrun_world.
      * rewrite drop_0. f_equal. same_events.
      * unfold array. rewrite length_take. lia.
      * now rewrite drop_0.
Qed.


(** X2: when the process is opened and some module among the first 1024
    of the enumeration exports the symbol, the scanner returns the answer
    of the first such module and leaves the error and the heap alone; it
    probes the modules before it and that module, in the order of the
    enumeration, never a module after it, and then closes the process. *)
Theorem LookupSymbolInProcess_first_export
    P symbol error w before module after :
  os_open_process P <> nullptr ->
  os_process_modules P = Some (before ++ module :: after) ->
  (length before < modules_capacity)%nat ->
  Forall (fun m => os_get_proc_address P m symbol = nullptr) before ->
  os_get_proc_address P module symbol <> nullptr ->
  LookupSymbolInProcess P symbol error w =
    (Returns (os_get_proc_address P module symbol, error),
     add_events
       (EvOpenProcess :: EvEnumProcessModules (os_open_process P) ::
        probe_events symbol (before ++ [module]) ++
        [EvCloseHandle (os_open_process P)])
       (after_force_load P w)).
Proof.
  intros Hcp Hall Hlen Hbefore Hhit.
  rewrite LookupSymbolInProcess_cases. cbn zeta.
  apply Z.eqb_neq in Hcp. rewrite Hcp, Hall.
  assert (Harray :
    take modules_capacity (before ++ module :: after)
    = before ++ module :: take (modules_capacity - S (length before)) after).
  { rewrite take_app, (take_ge before) by lia.
    destruct (modules_capacity - length before)%nat as [|k] eqn:Hk; [lia |].
    cbn [take]. do 3 f_equal. lia. }
  rewrite Harray.
  destruct (first_hit_app P symbol before module
              (take (modules_capacity - S (length before)) after)
              Hbefore Hhit) as [-> ->].
  f_equal. same_events.
Qed.

Lemma LookupSymbolInProcess_first_export_witness :
  LookupSymbolInProcess sample_windows "puts" nullptr empty_world =
    (Returns (12288, nullptr),
     add_events
       [EvOpenProcess; EvEnumProcessModules 64; EvGetProcAddress 256 "puts";
        EvGetProcAddress 257 "puts"; EvCloseHandle 64]
       (after_force_load sample_windows empty_world)).
Proof.
  assert (Hcp : os_open_process sample_windows <> nullptr) by discriminate.
  assert (Hlen : (length [256] < modules_capacity)%nat)
    by (unfold modules_capacity; cbn [length]; lia).
  assert (Hbefore :
    Forall (fun m => os_get_proc_address sample_windows m "puts" = nullptr)
      [256]) by (repeat constructor).
  assert (Hhit : os_get_proc_address sample_windows 257 "puts" <> nullptr)
    by discriminate.
  exact (LookupSymbolInProcess_first_export sample_windows "puts" nullptr
           empty_world [256] 257 [258] Hcp eq_refl Hlen Hbefore Hhit).
Defined.

(** X3: a scan that returns has opened the process once; when that
    failed it made no further call, and when it succeeded it enumerated
    once, then only probed modules for the symbol, and closed the handle
    it had opened as its last call, on the path of a hit and on the path
    of no hit alike. *)
Theorem LookupSymbolInProcess_closes_what_it_opens
    P symbol error w result error' w' :
  LookupSymbolInProcess P symbol error w = (Returns (result, error'), w') ->
  exists probes,
    emitted w w'
      (force_load_events P w ++
       EvOpenProcess ::
       (if os_open_process P =? nullptr then []
        else EvEnumProcessModules (os_open_process P) ::
             probe_events symbol probes ++
             [EvCloseHandle (os_open_process P)])).
Proof.
  rewrite LookupSymbolInProcess_cases. cbn zeta. unfold emitted.
  destruct (os_open_process P =? nullptr).
  { intros [= _ _ <-]. exists []. cbn.
    now rewrite trace_after_force_load, <- app_assoc. }
  destruct (os_process_modules P) as [all|].
  2:{ intros [= _ _ <-]. exists []. cbn.
      now rewrite trace_after_force_load, <- !app_assoc. }
  destruct (first_hit P symbol (take modules_capacity all)).
  { intros [= _ _ <-]. exists (probed P symbol (take modules_capacity all)).
    cbn. now rewrite trace_after_force_load, <- !app_assoc. }
  destruct (length all <=? modules_capacity)%nat; [| discriminate].
  intros [= _ _ <-]. exists (take modules_capacity all).
  cbn. now rewrite trace_after_force_load, <- !app_assoc.
Qed.

Lemma LookupSymbolInProcess_closes_what_it_opens_witness :
  exists probes,
    emitted empty_world
      (snd (LookupSymbolInProcess sample_windows "missing_fn" nullptr
              empty_world))
      (force_load_events sample_windows empty_world ++
       [EvOpenProcess; EvEnumProcessModules 64] ++
       probe_events "missing_fn" probes ++ [EvCloseHandle 64]).
Proof.
  exact (LookupSymbolInProcess_closes_what_it_opens sample_windows
           "missing_fn" nullptr empty_world nullptr 1
           (snd (LookupSymbolInProcess sample_windows "missing_fn" nullptr
                   empty_world))
           eq_refl).
Defined.

(** ** Who owns an error *)

(** Every outcome of [ResolveSymbol]: over a world [w0] with the heap of
    the start, no error, or a fresh message in [*error], or an overrun. *)
Lemma ResolveSymbol_outcome P handle symbol w :
  exists w0,
    heap w0 = heap w /\
    match ResolveSymbol P handle symbol nullptr w with
    | (Returns (result, error), w') =>
        (error = nullptr /\ w' = w0) \/
        (exists text,
           error = fresh_addr (heap w0) /\ w' = with_message text w0 /\
           (text = open_failed_text \/ text = not_found_text symbol \/
            exists address, os_resolve P handle symbol = (address, Some text)))
    | (Undefined, w') => w' = w0
    | (Throws _, _) => False
    end.
Proof.
  unfold ResolveSymbol.
  destruct (DART_HOST_OS_WINDOWS (host_os P)
            && (handle =? kWindowsDynamicLibraryProcessPtr)).
  - destruct (LookupSymbolInProcess_general P symbol nullptr w)
      as (evs & _ & Hshape).
    exists (add_events evs (after_force_load P w)).
    split; [now rewrite heap_add_events, heap_after_force_load |].
    destruct (LookupSymbolInProcess P symbol nullptr w)
      as [[[result error] | msg |] w']; cbn zeta in Hshape;
      [| exact Hshape | exact Hshape].
    destruct Hshape as [(_ & -> & ->) | (_ & -> & text & Htext & ->)];
      [now left | right].
    exists text. split; [| split; [reflexivity |]].
    + now rewrite heap_add_events, heap_after_force_load.
    + destruct (os_open_process P =? nullptr); tauto.
  - exists (add_event (EvUtilsResolveSymbolInDynamicLibrary handle symbol) w).
    split; [reflexivity |].
    rewrite Utils_ResolveSymbolInDynamicLibrary_run. cbn zeta.
    destruct (os_resolve P handle symbol) as [result [diagnostic|]].
    + right. exists diagnostic. split; [reflexivity |]. split; [reflexivity |].
      right. right. now exists result.
    + now left.
Qed.

Lemma heap_with_message text w :
  heap (with_message text w) = <[fresh_addr (heap w) := text]> (heap w).
Proof. reflexivity. Qed.

(** X4: the error that [ResolveSymbol] hands back belongs to the caller.
    When it is null the heap of messages is as before the call.  When it
    is not null it is an address that was not live before the call, the
    heap differs from the old one by the message at that address alone,
    and a [free] of it is defined and gives the old heap back. *)
Theorem ResolveSymbol_error_is_owned P handle symbol w result error w' :
  ResolveSymbol P handle symbol nullptr w = (Returns (result, error), w') ->
  if error =? nullptr then heap w' = heap w
  else
    heap w !! error = None /\
    (exists text, heap w' = <[error := text]> (heap w)) /\
    fst (free error w') = Returns tt /\
    heap (snd (free error w')) = heap w.
Proof.
  intros Hrun. destruct (ResolveSymbol_outcome P handle symbol w)
    as (w0 & Hheap & Hshape).
  rewrite Hrun in Hshape.
  destruct Hshape as [(-> & ->) | (text & -> & -> & _)].
  - exact Hheap.
  - rewrite fresh_addr_eqb, free_with_message, heap_with_message.
    cbn [fst snd]. rewrite Hheap.
    split; [apply fresh_addr_unused |]. split; [now exists text |]. now split.
Qed.

Lemma ResolveSymbol_error_is_owned_witness :
  heap empty_world !! 1 = None /\
  (exists text,
     heap (snd (ResolveSymbol sample_linux 4096 "subtract_ints" nullptr
                  empty_world))
     = <[1 := text]> (heap empty_world)) /\
  fst (free 1 (snd (ResolveSymbol sample_linux 4096 "subtract_ints" nullptr
                      empty_world))) = Returns tt /\
  heap (snd (free 1 (snd (ResolveSymbol sample_linux 4096 "subtract_ints"
                            nullptr empty_world)))) = heap empty_world.
Proof.
  exact (ResolveSymbol_error_is_owned sample_linux 4096 "subtract_ints"
           empty_world nullptr 1
           (snd (ResolveSymbol sample_linux 4096 "subtract_ints" nullptr
                   empty_world))
           eq_refl).
Defined.

(** ** The entries leave no message behind *)

(** The two dispatches of lines 129-136 and 140-148 agree: an existence
    check is the lookup followed by lines 149-153. *)
Lemma SymbolExists_as_resolve P handle symbol w :
  SymbolExists P handle symbol w =
    (do '(_, error) <- ResolveSymbol P handle symbol nullptr;
     if negb (error =? nullptr) then run free error; ret false
     else ret true) w.
Proof.
  unfold SymbolExists, ResolveSymbol, kWindowsDynamicLibraryProcessPtr.
  destruct (DART_HOST_OS_WINDOWS (host_os P)); cbn [negb andb];
    [| reflexivity].
  now destruct (handle =? nullptr).
Qed.

(** What [Ffi_dl_open] does, by the answer of the platform loader. *)
Lemma Ffi_dl_open_run P lib_path w :
  Ffi_dl_open P lib_path w =
    let w1 := add_event (EvUtilsLoadDynamicLibrary (Some lib_path)) w in
    match os_load P (Some lib_path) with
    | (handle, None) => (Returns (DynamicLibrary_New handle), w1)
    | (_, Some diagnostic) =>
        (Throws (load_error_text (Some lib_path) diagnostic), w1)
    end.
Proof.
  unfold Ffi_dl_open. unfold bind at 1. rewrite LoadDynamicLibrary_run.
  cbn zeta.
  destruct (os_load P (Some lib_path)) as [handle [diagnostic|]].
  - destruct (load_error_addr_fresh (heap w) diagnostic) as (Hn & _ & Hfree).
    pose proof Hn as Hn'. apply Z.eqb_neq in Hn'. rewrite Hn'. cbn [negb].
    set (w1 := add_event (EvUtilsLoadDynamicLibrary (Some lib_path)) w).
    change (heap w) with (heap w1). now apply consume_message.
  - reflexivity.
Qed.

(** What [Ffi_dl_executableLibrary] does: whatever the loader answers, a
    library around the handle it returned. *)
Lemma Ffi_dl_executableLibrary_run P w :
  Ffi_dl_executableLibrary P w =
    (Returns (DynamicLibrary_New (fst (os_load P None))),
     add_event (EvUtilsLoadDynamicLibrary None) w).
Proof.
  unfold Ffi_dl_executableLibrary, bind. rewrite LoadDynamicLibrary_run.
  cbn zeta. now destruct (os_load P None) as [handle [diagnostic|]].
Qed.

(** What [Ffi_dl_lookup] does with the outcome of [ResolveSymbol]. *)
Lemma Ffi_dl_lookup_after_resolve P dlib symbol w :
  match ResolveSymbol P (GetHandle dlib) symbol nullptr w with
  | (Returns (result, error), w') =>
      if error =? nullptr then
        Ffi_dl_lookup P dlib symbol w
          = (Returns (Word.to_uword (word_size P) result), w')
      else
        exists text,
          message_at w' error text /\
          Ffi_dl_lookup P dlib symbol w
            = (Throws (lookup_error_text symbol text),
               set_heap (delete error (heap w')) w')
  | (Undefined, w') => Ffi_dl_lookup P dlib symbol w = (Undefined, w')
  | (Throws _, _) => False
  end.
Proof.
  destruct (ResolveSymbol_outcome P (GetHandle dlib) symbol w)
    as (w0 & _ & Hshape).
  unfold Ffi_dl_lookup, bind.
  destruct (ResolveSymbol P (GetHandle dlib) symbol nullptr w)
    as [[[result error] | msg |] w']; [| exact Hshape | reflexivity].
  destruct Hshape as [(-> & ->) | (text & -> & -> & _)]; [reflexivity |].
  rewrite fresh_addr_eqb. cbn [negb]. exists text.
  split; [apply message_at_with_message |].
  rewrite c_str_with_message, free_with_message.
  now rewrite delete_message.
Qed.

(** What [FfiResolve] does for an asset with a resolver, whatever the
    argument count. *)
Lemma FfiResolve_with_resolver P asset symbol args_n lib resolver w :
  vm_lookup_library P asset = Some lib ->
  ffi_native_resolver lib = Some resolver ->
  FfiResolve P asset symbol args_n w =
    let args :=
      Word.to_uword (word_size P) (Word.to_intptr (word_size P) args_n) in
    let w1 :=
      add_events [EvLookupLibrary asset; EvNativeResolver symbol args] w in
    if resolver symbol args =? nullptr then
      (Throws (resolve_error_text symbol asset (resolver_error_text symbol)),
       w1)
    else (Returns (Word.to_intptr (word_size P) (resolver symbol args)), w1).
Proof.
  intros Hlib Hres. cbn zeta.
  unfold FfiResolve, GetFfiNativeResolver, emit, ret, bind.
  cbn beta iota zeta. rewrite Hlib. cbn beta iota zeta. rewrite Hres.
  unfold FfiResolveWithFfiNativeResolver, emit, bind. cbn beta iota zeta.
  set (args := Word.to_uword (word_size P)
                 (Word.to_intptr (word_size P) args_n)).
  set (w1 := add_event (EvNativeResolver symbol args)
               (add_event (EvLookupLibrary asset) w)).
  assert (Hw1 : w1 = add_events
                  [EvLookupLibrary asset; EvNativeResolver symbol args] w)
    by (unfold w1; same_events).
  destruct (resolver symbol args =? nullptr).
  - unfold OS_SCreate, malloc_string, ret, bind. cbn beta iota zeta.
    rewrite fresh_addr_eqb. cbn [negb].
    fold (with_message ("Couldn't resolve function: '" +:+ symbol +:+ "'") w1).
    now rewrite ThrowFfiResolveError_fresh, Hw1.
  - unfold ret. cbn beta iota zeta. cbn [Z.eqb nullptr negb]. now rewrite Hw1.
Qed.

(** An asset has a resolver or it has none. *)
Lemma resolver_or_none P asset :
  no_resolver P asset \/
  exists lib resolver,
    vm_lookup_library P asset = Some lib /\
    ffi_native_resolver lib = Some resolver.
Proof.
  unfold no_resolver.
  destruct (vm_lookup_library P asset) as [lib|] eqn:Hlib; [| now left; left].
  destruct (ffi_native_resolver lib) as [resolver|] eqn:Hres.
  - right. now exists lib, resolver.
  - left. right. now exists lib.
Qed.

Lemma keeps_heap_Ffi_dl_open P lib_path : keeps_heap (Ffi_dl_open P lib_path).
Proof.
  intros w. rewrite Ffi_dl_open_run. cbn zeta.
  now destruct (os_load P (Some lib_path)) as [handle [diagnostic|]].
Qed.

Lemma keeps_heap_Ffi_dl_executableLibrary P :
  keeps_heap (Ffi_dl_executableLibrary P).
Proof. intros w. now rewrite Ffi_dl_executableLibrary_run. Qed.

Lemma keeps_heap_Ffi_dl_lookup P dlib symbol :
  keeps_heap (Ffi_dl_lookup P dlib symbol).
Proof.
  intros w. pose proof (Ffi_dl_lookup_after_resolve P dlib symbol w) as Hrun.
  destruct (ResolveSymbol_outcome P (GetHandle dlib) symbol w)
    as (w0 & Hheap & Hshape).
  destruct (ResolveSymbol P (GetHandle dlib) symbol nullptr w)
    as [[[result error] | msg |] w']; [| destruct Hshape |].
  - destruct Hshape as [(-> & ->) | (text & -> & -> & _)].
    + cbn in Hrun. now rewrite Hrun.
    + rewrite fresh_addr_eqb in Hrun. destruct Hrun as (text' & _ & ->).
      cbn [snd]. now rewrite delete_message.
  - subst w'. now rewrite Hrun.
Qed.

Lemma keeps_heap_SymbolExists P handle symbol :
  keeps_heap (SymbolExists P handle symbol).
Proof.
  intros w. rewrite SymbolExists_as_resolve. unfold bind at 1.
  destruct (ResolveSymbol_outcome P handle symbol w) as (w0 & Hheap & Hshape).
  destruct (ResolveSymbol P handle symbol nullptr w)
    as [[[result error] | msg |] w']; [| destruct Hshape |].
  - destruct Hshape as [(-> & ->) | (text & -> & -> & _)].
    + now rewrite discard_no_error.
    + now rewrite discard_fresh_error.
  - now subst w'.
Qed.

Lemma keeps_heap_FfiResolve P asset symbol args_n :
  keeps_heap (FfiResolve P asset symbol args_n).
Proof.
  intros w. destruct (resolver_or_none P asset)
    as [Hno | (lib & resolver & Hlib & Hres)].
  - rewrite (FfiResolve_no_resolver _ _ _ _ _ Hno). unfold bind.
    destruct (ResolveSymbol_outcome P (GetHandle (Ffi_dl_processLibrary P))
                symbol (add_event (EvLookupLibrary asset) w))
      as (w0 & Hheap & Hshape).
    destruct (ResolveSymbol P (GetHandle (Ffi_dl_processLibrary P)) symbol
                nullptr (add_event (EvLookupLibrary asset) w))
      as [[[result error] | msg |] w']; [| destruct Hshape |].
    + unfold throw_or_return.
      destruct Hshape as [(-> & ->) | (text & -> & -> & _)]; [exact Hheap |].
      rewrite fresh_addr_eqb. cbn [negb].
      now rewrite ThrowFfiResolveError_fresh.
    + now subst w'.
  - rewrite (FfiResolve_with_resolver _ _ _ _ _ _ _ Hlib Hres). cbn zeta.
    now destruct (resolver symbol _ =? nullptr).
Qed.

Lemma perform_entry_keeps_heap P c w :
  is_entry c = true -> heap (perform P c w) = heap w.
Proof.
  destruct c; cbn [perform is_entry]; intros Hentry; try discriminate.
  - apply keeps_heap_Ffi_dl_open.
  - apply keeps_heap_Ffi_dl_executableLibrary.
  - apply keeps_heap_Ffi_dl_lookup.
  - apply keeps_heap_SymbolExists.
  - apply keeps_heap_FfiResolve.
Qed.

(** X5: the native entries leave no C message behind.  After any sequence
    of calls of [Ffi_dl_open], [Ffi_dl_executableLibrary], [Ffi_dl_lookup],
    [Ffi_dl_providesSymbol] and [FfiResolve], on whatever hosts and
    whether they return, throw or overrun, the heap of [malloc]ed messages
    is what it was before: every diagnostic and every error message the
    calls created has been freed. *)
Theorem entries_leave_no_message calls : forall w,
  Forall (fun pc => is_entry (snd pc) = true) calls ->
  heap (perform_all calls w) = heap w.
Proof.
  induction calls as [|[P c] calls IH]; intros w Hentries; [reflexivity |].
  inversion Hentries as [|pc rest Hc Hrest]; subst.
  cbn [perform_all fold_left fst snd] in *.
  etransitivity; [apply (IH _ Hrest) |].
  now apply perform_entry_keeps_heap.
Qed.

Lemma entries_leave_no_message_witness :
  heap (perform_all
          [(failing_loader_linux, CallOpen "libmissing.so");
           (sample_linux, CallLookup (DynamicLibrary_New 4096) "subtract_ints");
           (sample_windows,
            CallProvidesSymbol (DynamicLibrary_New nullptr) "missing_fn");
           (sample_windows, CallFfiResolve "my_asset" "puts" 1);
           (crowded_windows, CallFfiResolve "other" "puts" 1)]
          empty_world)
  = heap empty_world.
Proof.
  apply entries_leave_no_message. repeat constructor.
Defined.

(** ** The library entries *)

(** X6: a lookup that goes to the platform (any handle off Windows, a
    non-null handle on Windows) makes that one call and decides by the
    diagnostic alone.  Without a diagnostic it returns the address as an
    unsigned word, a null address included; with one it throws the text of
    line 194, made of the symbol and the diagnostic, and frees the C
    message, so that the heap is as before. *)
Theorem Ffi_dl_lookup_platform P dlib symbol w :
  DART_HOST_OS_WINDOWS (host_os P) && (GetHandle dlib =? nullptr) = false ->
  Ffi_dl_lookup P dlib symbol w =
    let w1 :=
      add_event (EvUtilsResolveSymbolInDynamicLibrary (GetHandle dlib) symbol)
        w in
    match os_resolve P (GetHandle dlib) symbol with
    | (result, None) => (Returns (Word.to_uword (word_size P) result), w1)
    | (_, Some diagnostic) => (Throws (lookup_error_text symbol diagnostic), w1)
    end.
Proof.
  intros Hplatform. cbn zeta.
  unfold Ffi_dl_lookup, ResolveSymbol, kWindowsDynamicLibraryProcessPtr, bind.
  rewrite Hplatform, Utils_ResolveSymbolInDynamicLibrary_run. cbn zeta.
  destruct (os_resolve P (GetHandle dlib) symbol) as [result [diagnostic|]];
    [| reflexivity].
  rewrite fresh_addr_eqb. cbn [negb].
  set (w1 := add_event _ w). change (heap w) with (heap w1).
  now rewrite c_str_with_message, free_with_message.
Qed.

Lemma Ffi_dl_lookup_platform_witness :
  Ffi_dl_lookup sample_linux (DynamicLibrary_New 4096) "subtract_ints"
    empty_world
  = (Throws "Failed to lookup symbol 'subtract_ints': undefined symbol",
     add_event (EvUtilsResolveSymbolInDynamicLibrary 4096 "subtract_ints")
       empty_world).
Proof.
  exact (Ffi_dl_lookup_platform sample_linux (DynamicLibrary_New 4096)
           "subtract_ints" empty_world eq_refl).
Defined.

(** X7: [Ffi_dl_open] throws exactly when the platform loader gives a
    diagnostic, whatever handle comes with it; its message is the text of
    line 74 with the path and the diagnostic.  Without a diagnostic it
    returns a library around the handle of the loader, a null handle
    included.  [Ffi_dl_executableLibrary] never throws: it returns a
    library around the handle the loader gave for the null path.  Each
    makes the one call of the loader and no other. *)
Theorem Ffi_dl_open_throws_iff_diagnostic P lib_path w :
  let w1 := add_event (EvUtilsLoadDynamicLibrary (Some lib_path)) w in
  ((exists msg w', Ffi_dl_open P lib_path w = (Throws msg, w')) <->
   (exists diagnostic, snd (os_load P (Some lib_path)) = Some diagnostic)) /\
  (forall diagnostic,
     snd (os_load P (Some lib_path)) = Some diagnostic ->
     Ffi_dl_open P lib_path w
       = (Throws (load_error_text (Some lib_path) diagnostic), w1) /\
     mentions (load_error_text (Some lib_path) diagnostic) lib_path /\
     mentions (load_error_text (Some lib_path) diagnostic) diagnostic) /\
  (snd (os_load P (Some lib_path)) = None ->
   Ffi_dl_open P lib_path w
     = (Returns (DynamicLibrary_New (fst (os_load P (Some lib_path)))), w1)) /\
  Ffi_dl_executableLibrary P w
    = (Returns (DynamicLibrary_New (fst (os_load P None))),
       add_event (EvUtilsLoadDynamicLibrary None) w).
Proof.
  cbn zeta. rewrite Ffi_dl_open_run, Ffi_dl_executableLibrary_run. cbn zeta.
  destruct (os_load P (Some lib_path)) as [handle [diagnostic|]]; cbn [fst snd].
  - split; [| split; [| split]]; try reflexivity.
    + split; [now exists diagnostic | now eexists _, _].
    + intros d [= <-]. split; [reflexivity |].
      destruct (load_error_text_mentions (Some lib_path) diagnostic).
      now split.
    + discriminate.
  - split; [| split; [| split]]; try reflexivity.
    + split; [now intros (msg & w' & [=]) | now intros (d & [=])].
    + discriminate.
Qed.

(** X8: on Windows a library whose handle is null is the process library.
    So when the loader gives a null handle for the main executable, as it
    does when it fails, [Ffi_dl_executableLibrary] returns the very object
    that [Ffi_dl_processLibrary] returns, and a lookup on it scans every
    module of the process. *)
Theorem null_executable_is_process_library P w :
  host_os P = Windows ->
  fst (os_load P None) = nullptr ->
  fst (Ffi_dl_executableLibrary P w) = Returns (Ffi_dl_processLibrary P) /\
  forall symbol w',
    ResolveSymbol P (GetHandle (DynamicLibrary_New (fst (os_load P None))))
      symbol nullptr w'
    = LookupSymbolInProcess P symbol nullptr w'.
Proof.
  intros Hos Hnull. rewrite Ffi_dl_executableLibrary_run, Hnull. split.
  - unfold Ffi_dl_processLibrary. now rewrite Hos.
  - intros symbol w'. unfold ResolveSymbol. now rewrite Hos.
Qed.

Lemma null_executable_is_process_library_witness :
  fst (Ffi_dl_executableLibrary failing_loader_windows empty_world)
  = Returns (Ffi_dl_processLibrary failing_loader_windows) /\
  fst (ResolveSymbol failing_loader_windows nullptr "puts" nullptr empty_world)
  = Returns (12288, nullptr).
Proof.
  destruct (null_executable_is_process_library failing_loader_windows
              empty_world eq_refl eq_refl) as [Hlib Hscan].
  split; [exact Hlib |].
  exact (eq_trans (f_equal fst (Hscan "puts"%string empty_world)) eq_refl).
Defined.

(** X9: the number [Ffi_dl_getHandle] gives stands for the handle on both
    widths: it is a [uint64_t], its low bits of the width of a pointer are
    the handle, and two handles with the same number are the same
    handle. *)
Theorem Ffi_dl_getHandle_keeps_handle P h1 h2 :
  Word.in_range (word_size P) h1 ->
  Word.in_range (word_size P) h2 ->
  0 <= Ffi_dl_getHandle P (DynamicLibrary_New h1) < 2 ^ 64 /\
  Word.to_uword (word_size P) (Ffi_dl_getHandle P (DynamicLibrary_New h1)) = h1 /\
  (Ffi_dl_getHandle P (DynamicLibrary_New h1)
   = Ffi_dl_getHandle P (DynamicLibrary_New h2) -> h1 = h2).
Proof.
  intros Hr1 Hr2.
  assert (Hlow : forall h,
    Word.in_range (word_size P) h ->
    Word.to_uword (word_size P) (Ffi_dl_getHandle P (DynamicLibrary_New h)) = h).
  { intros h Hr. unfold Ffi_dl_getHandle, Word.to_uint64. cbn [GetHandle].
    unfold Word.to_uword at 1.
    rewrite Z.mod_mod_divide.
    - now apply to_uword_to_intptr.
    - destruct (word_size P); unfold Word.modulus; cbn [Word.bits].
      + exists (2 ^ 32). lia.
      + exists 1. lia. }
  split; [| split].
  - unfold Ffi_dl_getHandle, Word.to_uint64. apply Z.mod_pos_bound. lia.
  - now apply Hlow.
  - intros Heq. rewrite <- (Hlow h1 Hr1), <- (Hlow h2 Hr2). now rewrite Heq.
Qed.

Lemma Ffi_dl_getHandle_keeps_handle_witness :
  Word.to_uword Word.W32
    (Ffi_dl_getHandle linux_arm32 (DynamicLibrary_New 2147483648))
  = 2147483648.
Proof.
  assert (Hr : Word.in_range (word_size linux_arm32) 2147483648)
    by (split; now vm_compute).
  exact (proj1 (proj2
           (Ffi_dl_getHandle_keeps_handle linux_arm32 2147483648 2147483648
              Hr Hr))).
Defined.

(** ** Which calls an entry can make *)

Lemma confined_quiet allowed {A} (m : M A) :
  (forall w, trace (snd (m w)) = trace w) -> confined allowed m.
Proof.
  intros H w. exists []. split; [now rewrite app_nil_r | constructor].
Qed.

Lemma confined_ret allowed {A} (a : A) : confined allowed (ret a).
Proof. now apply confined_quiet. Qed.

Lemma confined_throw allowed {A} msg : confined allowed (@throw A msg).
Proof. now apply confined_quiet. Qed.

Lemma confined_undefined allowed {A} : confined allowed (@undefined A).
Proof. now apply confined_quiet. Qed.

Lemma confined_malloc_string allowed s : confined allowed (malloc_string s).
Proof. now apply confined_quiet. Qed.

Lemma confined_free allowed p : confined allowed (free p).
Proof.
  apply confined_quiet. intros w. unfold free.
  destruct (p =? nullptr); [reflexivity |]. now destruct (heap w !! p).
Qed.

Lemma confined_c_str allowed p : confined allowed (c_str p).
Proof.
  apply confined_quiet. intros w. unfold c_str. now destruct (heap w !! p).
Qed.

Lemma confined_get allowed : confined allowed get_co_task_mem_allocated.
Proof. now apply confined_quiet. Qed.

Lemma confined_put allowed p : confined allowed (put_co_task_mem_allocated p).
Proof. now apply confined_quiet. Qed.

Lemma confined_emit (allowed : Event -> bool) e :
  allowed e = true -> confined allowed (emit e).
Proof. intros He w. exists [e]. split; [reflexivity | now constructor]. Qed.

Lemma confined_bind allowed {A B} (m : M A) (k : A -> M B) :
  confined allowed m -> (forall a, confined allowed (k a)) ->
  confined allowed (bind m k).
Proof.
  intros Hm Hk w. destruct (Hm w) as (evs & Ht & Hevs).
  unfold bind. destruct (m w) as [[a | msg |] w1]; cbn [snd] in *.
  - destruct (Hk a w1) as (evs' & Ht' & Hevs').
    exists (evs ++ evs'). split.
    + now rewrite Ht', Ht, app_assoc.
    + now apply Forall_app.
  - now exists evs.
  - now exists evs.
Qed.

Lemma confined_weaken (allowed allowed' : Event -> bool) {A} (m : M A) :
  (forall e, allowed e = true -> allowed' e = true) ->
  confined allowed m -> confined allowed' m.
Proof.
  intros Himp Hm w. destruct (Hm w) as (evs & Ht & Hevs).
  exists evs. split; [exact Ht |].
  eapply Forall_impl; [exact Hevs | exact Himp].
Qed.

Lemma keeps_guard_quiet {A} (m : M A) :
  (forall w, co_task_mem_allocated (snd (m w)) = co_task_mem_allocated w) ->
  keeps_guard m.
Proof. intros H w. apply H. Qed.

Lemma keeps_guard_ret {A} (a : A) : keeps_guard (ret a).
Proof. now intros w. Qed.

Lemma keeps_guard_throw {A} msg : keeps_guard (@throw A msg).
Proof. now intros w. Qed.

Lemma keeps_guard_malloc_string s : keeps_guard (malloc_string s).
Proof. now intros w. Qed.

Lemma keeps_guard_emit e : keeps_guard (emit e).
Proof. now intros w. Qed.

Lemma keeps_guard_free p : keeps_guard (free p).
Proof.
  intros w. unfold free.
  destruct (p =? nullptr); [reflexivity |]. now destruct (heap w !! p).
Qed.

Lemma keeps_guard_c_str p : keeps_guard (c_str p).
Proof. intros w. unfold c_str. now destruct (heap w !! p). Qed.

Lemma keeps_guard_bind {A B} (m : M A) (k : A -> M B) :
  keeps_guard m -> (forall a, keeps_guard (k a)) -> keeps_guard (bind m k).
Proof.
  intros Hm Hk w. pose proof (Hm w) as Hg.
  unfold bind. destruct (m w) as [[a | msg |] w1]; cbn [snd] in *;
    [| exact Hg | exact Hg].
  now rewrite Hk.
Qed.

Create HintDb footprint.
#[local] Hint Resolve confined_ret confined_throw confined_undefined
  confined_malloc_string confined_free confined_c_str confined_get
  confined_put keeps_guard_ret keeps_guard_throw keeps_guard_malloc_string
  keeps_guard_emit keeps_guard_free keeps_guard_c_str : footprint.

(** Take a computation apart along its binds and case distinctions, for
    either of the two footprints. *)
Ltac walk :=
  repeat first
    [ progress (auto with footprint)
    | apply confined_emit; reflexivity
    | apply confined_bind; [| intros ?]
    | apply keeps_guard_bind; [| intros ?]
    | match goal with
      | |- confined _ (match ?x with _ => _ end) => destruct x
      | |- keeps_guard (match ?x with _ => _ end) => destruct x
      end ].

Lemma confined_force_load_ole32 P :
  confined is_lookup_call (force_load_ole32 P).
Proof. unfold force_load_ole32, CoTaskMemAlloc, CoTaskMemFree. walk. Qed.

Lemma confined_probe_modules P modules symbol : forall remaining i,
  confined is_lookup_call (probe_modules P modules symbol i remaining).
Proof.
  induction remaining as [|remaining IH]; intros i; cbn [probe_modules].
  - walk.
  - unfold GetProcAddress. walk.
Qed.

#[local] Hint Resolve confined_force_load_ole32 confined_probe_modules
  : footprint.

Lemma confined_LookupSymbolInProcess P symbol error :
  confined is_lookup_call (LookupSymbolInProcess P symbol error).
Proof.
  unfold LookupSymbolInProcess, OpenProcess, EnumProcessModules, CloseHandle,
    OS_SCreate.
  walk.
Qed.

Lemma confined_Utils_ResolveSymbolInDynamicLibrary P handle symbol error :
  confined is_lookup_call
    (Utils_ResolveSymbolInDynamicLibrary P handle symbol error).
Proof. unfold Utils_ResolveSymbolInDynamicLibrary. walk. Qed.

#[local] Hint Resolve confined_LookupSymbolInProcess
  confined_Utils_ResolveSymbolInDynamicLibrary : footprint.

Lemma confined_ResolveSymbol P handle symbol error :
  confined is_lookup_call (ResolveSymbol P handle symbol error).
Proof. unfold ResolveSymbol. walk. Qed.

#[local] Hint Resolve confined_ResolveSymbol : footprint.

Lemma confined_SymbolExists P handle symbol :
  confined is_lookup_call (SymbolExists P handle symbol).
Proof. unfold SymbolExists. walk. Qed.

Lemma confined_Ffi_dl_lookup P dlib symbol :
  confined is_lookup_call (Ffi_dl_lookup P dlib symbol).
Proof. unfold Ffi_dl_lookup. walk. Qed.

(** Anything but a call of the platform loader. *)
Lemma lookup_call_is_no_load e :
  is_lookup_call e = true -> negb (is_load_call e) = true.
Proof. now destruct e. Qed.

Lemma confined_FfiResolve P asset symbol args_n :
  confined (fun e => negb (is_load_call e)) (FfiResolve P asset symbol args_n).
Proof.
  assert (Hprocess : forall m : M (Z * Z),
    confined is_lookup_call m -> confined (fun e => negb (is_load_call e)) m).
  { intros m. apply confined_weaken, lookup_call_is_no_load. }
  unfold FfiResolve, GetFfiNativeResolver, FfiResolveWithFfiNativeResolver,
    ThrowFfiResolveError, OS_SCreate.
  walk; apply Hprocess; auto with footprint.
Qed.

(** X10: a symbol lookup or an existence check calls nothing but the
    platform lookup and Win32: it never loads a library, never consults
    the library table and never calls a native resolver.  [FfiResolve]
    never loads a library either. *)
Theorem lookups_never_load :
  (forall P dlib symbol, confined is_lookup_call (Ffi_dl_lookup P dlib symbol)) /\
  (forall P dlib symbol,
     confined is_lookup_call (Ffi_dl_providesSymbol P dlib symbol)) /\
  (forall P asset symbol args_n,
     confined (fun e => negb (is_load_call e))
       (FfiResolve P asset symbol args_n)).
Proof.
  split; [| split].
  - apply confined_Ffi_dl_lookup.
  - intros P dlib symbol. apply confined_SymbolExists.
  - apply confined_FfiResolve.
Qed.

(** ** Hosts with dlfcn *)

(** Off Windows, [m] leaves the guard alone and makes no Win32 call. *)
Ltac off_windows Hos P :=
  revert Hos; destruct (host_os P); intros Hos; try discriminate Hos;
  cbn [DART_HOST_OS_WINDOWS negb andb]; walk.

Lemma no_win32_Utils_LoadDynamicLibrary P library_file error :
  confined (fun e => negb (is_win32_call e))
    (Utils_LoadDynamicLibrary P library_file error) /\
  keeps_guard (Utils_LoadDynamicLibrary P library_file error).
Proof. unfold Utils_LoadDynamicLibrary. split; walk. Qed.

Lemma no_win32_Utils_ResolveSymbolInDynamicLibrary P handle symbol error :
  confined (fun e => negb (is_win32_call e))
    (Utils_ResolveSymbolInDynamicLibrary P handle symbol error) /\
  keeps_guard (Utils_ResolveSymbolInDynamicLibrary P handle symbol error).
Proof. unfold Utils_ResolveSymbolInDynamicLibrary. split; walk. Qed.

Lemma no_win32_LoadDynamicLibrary P library_file error :
  confined (fun e => negb (is_win32_call e))
    (LoadDynamicLibrary P library_file error) /\
  keeps_guard (LoadDynamicLibrary P library_file error).
Proof.
  unfold LoadDynamicLibrary, OS_SCreate.
  split; walk; apply no_win32_Utils_LoadDynamicLibrary.
Qed.

Lemma no_win32_Ffi_dl_open P lib_path :
  confined (fun e => negb (is_win32_call e)) (Ffi_dl_open P lib_path) /\
  keeps_guard (Ffi_dl_open P lib_path).
Proof.
  unfold Ffi_dl_open. split; walk; apply no_win32_LoadDynamicLibrary.
Qed.

Lemma no_win32_Ffi_dl_executableLibrary P :
  confined (fun e => negb (is_win32_call e)) (Ffi_dl_executableLibrary P) /\
  keeps_guard (Ffi_dl_executableLibrary P).
Proof.
  unfold Ffi_dl_executableLibrary. split; walk; apply no_win32_LoadDynamicLibrary.
Qed.

Lemma no_win32_Ffi_dl_lookup P dlib symbol :
  DART_HOST_OS_WINDOWS (host_os P) = false ->
  confined (fun e => negb (is_win32_call e)) (Ffi_dl_lookup P dlib symbol) /\
  keeps_guard (Ffi_dl_lookup P dlib symbol).
Proof.
  intros Hos. unfold Ffi_dl_lookup, ResolveSymbol.
  split; off_windows Hos P;
    apply no_win32_Utils_ResolveSymbolInDynamicLibrary.
Qed.

Lemma no_win32_SymbolExists P handle symbol :
  DART_HOST_OS_WINDOWS (host_os P) = false ->
  confined (fun e => negb (is_win32_call e)) (SymbolExists P handle symbol) /\
  keeps_guard (SymbolExists P handle symbol).
Proof.
  intros Hos. unfold SymbolExists.
  split; off_windows Hos P;
    apply no_win32_Utils_ResolveSymbolInDynamicLibrary.
Qed.

Lemma no_win32_FfiResolve P asset symbol args_n :
  DART_HOST_OS_WINDOWS (host_os P) = false ->
  confined (fun e => negb (is_win32_call e))
    (FfiResolve P asset symbol args_n) /\
  keeps_guard (FfiResolve P asset symbol args_n).
Proof.
  intros Hos.
  unfold FfiResolve, GetFfiNativeResolver, FfiResolveWithFfiNativeResolver,
    ThrowFfiResolveError, OS_SCreate.
  split; off_windows Hos P;
    apply no_win32_Utils_ResolveSymbolInDynamicLibrary.
Qed.

Lemma perform_off_windows P c w :
  DART_HOST_OS_WINDOWS (host_os P) = false ->
  is_entry c = true ->
  co_task_mem_allocated (perform P c w) = co_task_mem_allocated w /\
  exists evs,
    trace (perform P c w) = trace w ++ evs /\
    Forall (fun e => negb (is_win32_call e) = true) evs.
Proof.
  intros Hos Hentry.
  destruct c; cbn [perform is_entry] in *; try discriminate.
  - destruct (no_win32_Ffi_dl_open P lib_path) as [Hc Hg]. split; [apply Hg | apply Hc].
  - destruct (no_win32_Ffi_dl_executableLibrary P) as [Hc Hg].
    split; [apply Hg | apply Hc].
  - destruct (no_win32_Ffi_dl_lookup P dlib symbol Hos) as [Hc Hg].
    split; [apply Hg | apply Hc].
  - destruct (no_win32_SymbolExists P (GetHandle dlib) symbol Hos) as [Hc Hg].
    split; [apply Hg | apply Hc].
  - destruct (no_win32_FfiResolve P asset symbol args_n Hos) as [Hc Hg].
    split; [apply Hg | apply Hc].
Qed.

(** X11: on a host that is not Windows the scanner is out of reach.  No
    sequence of calls of the native entries on such hosts makes a Win32
    call ([CoTaskMemAlloc], [CoTaskMemFree], [OpenProcess],
    [EnumProcessModules], [GetProcAddress], [CloseHandle]) or writes
    [co_task_mem_allocated], not even a lookup on a null handle. *)
Theorem entries_off_windows_never_scan calls : forall w,
  Forall (fun pc => DART_HOST_OS_WINDOWS (host_os (fst pc)) = false /\
                    is_entry (snd pc) = true) calls ->
  co_task_mem_allocated (perform_all calls w) = co_task_mem_allocated w /\
  exists evs,
    emitted w (perform_all calls w) evs /\
    Forall (fun e => negb (is_win32_call e) = true) evs.
Proof.
  unfold emitted.
  induction calls as [|[P c] calls IH]; intros w Hcalls;
    cbn [perform_all fold_left].
  - split; [reflexivity |]. exists []. split; [now rewrite app_nil_r | constructor].
  - inversion Hcalls as [|pc rest [Hos Hentry] Hrest]; subst.
    cbn [fst snd] in *.
    destruct (perform_off_windows P c w Hos Hentry) as (Hg & evs & Ht & Hevs).
    destruct (IH (perform P c w) Hrest) as (Hg' & evs' & Ht' & Hevs').
    unfold perform_all in Hg', Ht'.
    split; [congruence |].
    exists (evs ++ evs'). split.
    + now rewrite Ht', Ht, app_assoc.
    + now apply Forall_app.
Qed.

Lemma entries_off_windows_never_scan_witness :
  co_task_mem_allocated
    (perform_all
       [(sample_linux, CallLookup (DynamicLibrary_New nullptr) "puts");
        (sample_linux, CallFfiResolve "other" "missing_fn" 0);
        (linux_arm32, CallProvidesSymbol (DynamicLibrary_New 4096) "add_ints")]
       empty_world)
  = co_task_mem_allocated empty_world.
Proof.
  apply entries_off_windows_never_scan. repeat constructor.
Defined.

(** ** What a failure says *)

(** X12: whenever [FfiResolve] throws, its message is the text of line
    249 around the symbol, the asset and a cause, and the cause is one of
    four: the text of line 239 when the resolver of the asset answered
    null, the text of line 101 when the process could not be opened, the
    text of line 121 when the scan found nothing, or the diagnostic of the
    platform lookup on the handle of the process library. *)
Theorem FfiResolve_throw_names_cause P asset symbol args_n w msg w' :
  FfiResolve P asset symbol args_n w = (Throws msg, w') ->
  exists cause,
    msg = resolve_error_text symbol asset cause /\
    mentions msg symbol /\ mentions msg asset /\ mentions msg cause /\
    (cause = resolver_error_text symbol \/
     cause = open_failed_text \/
     cause = not_found_text symbol \/
     exists address,
       os_resolve P (GetHandle (Ffi_dl_processLibrary P)) symbol
         = (address, Some cause)).
Proof.
  intros Hrun.
  assert (Hdone : forall cause,
    msg = resolve_error_text symbol asset cause ->
    msg = resolve_error_text symbol asset cause /\
    mentions msg symbol /\ mentions msg asset /\ mentions msg cause).
  { intros cause ->. split; [reflexivity |].
    apply resolve_error_text_mentions. }
  destruct (resolver_or_none P asset)
    as [Hno | (lib & resolver & Hlib & Hres)].
  - rewrite (FfiResolve_no_resolver _ _ _ _ _ Hno) in Hrun.
    unfold bind in Hrun.
    destruct (ResolveSymbol_outcome P (GetHandle (Ffi_dl_processLibrary P))
                symbol (add_event (EvLookupLibrary asset) w))
      as (w0 & _ & Hshape).
    destruct (ResolveSymbol P (GetHandle (Ffi_dl_processLibrary P)) symbol
                nullptr (add_event (EvLookupLibrary asset) w))
      as [[[result error] | msg0 |] w1]; [| destruct Hshape | discriminate].
    unfold throw_or_return in Hrun.
    destruct Hshape as [(-> & ->) | (text & -> & -> & Hcause)];
      [discriminate |].
    rewrite fresh_addr_eqb in Hrun. cbn [negb] in Hrun.
    rewrite ThrowFfiResolveError_fresh in Hrun. injection Hrun as <- _.
    exists text.
    destruct (Hdone text eq_refl) as (H1 & H2 & H3 & H4).
    repeat split; try assumption. tauto.
  - rewrite (FfiResolve_with_resolver _ _ _ _ _ _ _ Hlib Hres) in Hrun.
    cbn zeta in Hrun.
    destruct (resolver symbol _ =? nullptr); [| discriminate].
    injection Hrun as <- _. exists (resolver_error_text symbol).
    destruct (Hdone (resolver_error_text symbol) eq_refl) as (H1 & H2 & H3 & H4).
    repeat split; try assumption. now left.
Qed.

Lemma FfiResolve_throw_names_cause_witness :
  exists cause,
    "Couldn't resolve native function 'missing_fn' in 'other' : None of the loaded modules contained the requested symbol 'missing_fn'..
"%string = resolve_error_text "missing_fn" "other" cause /\
    (cause = resolver_error_text "missing_fn" \/
     cause = open_failed_text \/
     cause = not_found_text "missing_fn" \/
     exists address,
       os_resolve sample_windows
         (GetHandle (Ffi_dl_processLibrary sample_windows)) "missing_fn"
         = (address, Some cause)).
Proof.
  destruct (FfiResolve_throw_names_cause sample_windows "other" "missing_fn" 0
              empty_world _ _ eq_refl) as (cause & Hmsg & _ & _ & _ & Hcause).
  exists cause. split; [exact Hmsg | exact Hcause].
Defined.

(** X13: [Ffi_dl_providesSymbol] is [Ffi_dl_lookup] without the answer:
    on the same library and symbol, from the same world, the two make the
    same calls and leave the same world, and the check returns true where
    the lookup returns an address, false where the lookup throws, and is
    undefined where the lookup is. *)
Theorem providesSymbol_agrees_with_lookup P dlib symbol w :
  snd (Ffi_dl_providesSymbol P dlib symbol w)
    = snd (Ffi_dl_lookup P dlib symbol w) /\
  match fst (Ffi_dl_lookup P dlib symbol w) with
  | Returns _ => fst (Ffi_dl_providesSymbol P dlib symbol w) = Returns true
  | Throws _ => fst (Ffi_dl_providesSymbol P dlib symbol w) = Returns false
  | Undefined => fst (Ffi_dl_providesSymbol P dlib symbol w) = Undefined
  end.
Proof.
  unfold Ffi_dl_providesSymbol.
  pose proof (SymbolExists_as_resolve P (GetHandle dlib) symbol w) as Hexists.
  pose proof (Ffi_dl_lookup_after_resolve P dlib symbol w) as Hlookup.
  destruct (ResolveSymbol_outcome P (GetHandle dlib) symbol w)
    as (w0 & _ & Hshape).
  unfold bind at 1 in Hexists.
  destruct (ResolveSymbol P (GetHandle dlib) symbol nullptr w)
    as [[[result error] | msg |] w1]; [| destruct Hshape |].
  - destruct Hshape as [(-> & ->) | (text & -> & -> & _)].
    + cbn in Hlookup. rewrite discard_no_error in Hexists.
      rewrite Hlookup, Hexists. now split.
    + rewrite fresh_addr_eqb in Hlookup. destruct Hlookup as (text' & _ & ->).
      rewrite discard_fresh_error in Hexists. rewrite Hexists.
      cbn [fst snd]. now rewrite delete_message.
  - subst w1. rewrite Hlookup, Hexists. now split.
Qed.

(** ** The existence check, as the code decides it *)

(** C3 as the spec states it fails where the lookup gives the null
    address without a diagnostic: [ResolveSymbol] returns null and no
    error, which is not a success in the sense of the claim, and
    [SymbolExists] returns true. *)
Lemma SymbolExists_true_for_null_address :
  ResolveSymbol null_symbol_linux 4096 "weak_fn" nullptr empty_world
  = (Returns (nullptr, nullptr),
     add_event (EvUtilsResolveSymbolInDynamicLibrary 4096 "weak_fn")
       empty_world) /\
  fst (SymbolExists null_symbol_linux 4096 "weak_fn" empty_world)
  = Returns true /\
  ~ exists_iff_resolve_succeeds null_symbol_linux 4096 "weak_fn" empty_world.
Proof.
  assert (Hresolve :
    ResolveSymbol null_symbol_linux 4096 "weak_fn" nullptr empty_world
    = (Returns (nullptr, nullptr),
       add_event (EvUtilsResolveSymbolInDynamicLibrary 4096 "weak_fn")
         empty_world)) by reflexivity.
  assert (Hexists :
    fst (SymbolExists null_symbol_linux 4096 "weak_fn" empty_world)
    = Returns true) by reflexivity.
  split; [exact Hresolve |]. split; [exact Hexists |].
  unfold exists_iff_resolve_succeeds. rewrite Hresolve, Hexists.
  intros [Hsucceeds _]. destruct (Hsucceeds eq_refl) as [Hnonnull _].
  now apply Hnonnull.
Qed.

(** C3, amended: [SymbolExists] decides by the error alone.  It returns
    true exactly when [ResolveSymbol] on the same handle and symbol leaves
    the error null, whatever the address, and false exactly when
    [ResolveSymbol] sets the error.  On the path of the scanner (Windows,
    the null handle) a null error comes with a non-null address, so that
    there true means a non-null address and no error.  In every outcome
    the heap of messages is afterwards what it was before: the message of
    a failed lookup is freed, and nothing is thrown. *)
Theorem SymbolExists_iff_no_error P handle symbol w :
  heap (snd (SymbolExists P handle symbol w)) = heap w /\
  match ResolveSymbol P handle symbol nullptr w with
  | (Returns (result, error), _) =>
      exists found,
        fst (SymbolExists P handle symbol w) = Returns found /\
        (found = true <-> error = nullptr) /\
        (DART_HOST_OS_WINDOWS (host_os P)
         && (handle =? kWindowsDynamicLibraryProcessPtr) = true ->
         (found = true <-> result <> nullptr /\ error = nullptr))
  | (Undefined, _) =>
      fst (SymbolExists P handle symbol w) = Undefined /\ ~ modules_fit P
  | (Throws _, _) => False
  end.
Proof.
  pose proof (SymbolExists_as_resolve P handle symbol w) as Hexists.
  unfold bind at 1 in Hexists.
  pose proof (ResolveSymbol_error_shape P handle symbol w) as Hfit.
  assert (Hscan :
    DART_HOST_OS_WINDOWS (host_os P)
    && (handle =? kWindowsDynamicLibraryProcessPtr) = true ->
    match ResolveSymbol P handle symbol nullptr w with
    | (Returns (result, error), _) => error = nullptr -> result <> nullptr
    | _ => True
    end).
  { intros Hpath. unfold ResolveSymbol. rewrite Hpath.
    pose proof (LookupSymbolInProcess_not_both P symbol w) as Hboth.
    destruct (LookupSymbolInProcess P symbol nullptr w)
      as [[[result error] | msg |] w1]; [| exact I | exact I].
    destruct Hboth as [_ Hnull]. intros Herror Hresult.
    now apply Hnull. }
  destruct (ResolveSymbol_outcome P handle symbol w) as (w0 & Hheap & Hshape).
  destruct (ResolveSymbol P handle symbol nullptr w)
    as [[[result error] | msg |] w1]; [| destruct Hshape |].
  - destruct Hshape as [(-> & ->) | (text & -> & -> & _)].
    + rewrite discard_no_error in Hexists. rewrite Hexists. cbn [fst snd].
      split; [exact Hheap |]. exists true. split; [reflexivity |].
      split; [tauto |]. intros Hpath. specialize (Hscan Hpath). tauto.
    + rewrite discard_fresh_error in Hexists. rewrite Hexists. cbn [fst snd].
      split; [exact Hheap |]. exists false. split; [reflexivity |].
      pose proof (fresh_addr_nonnull (heap w0)) as Hfresh.
      split; [split; [discriminate | tauto] |].
      intros _. split; [discriminate | tauto].
  - subst w1. rewrite Hexists. cbn [fst snd].
    split; [exact Hheap |]. split; [reflexivity | exact Hfit].
Qed.

(** On the scanner path of [sample_windows], where the second module
    exports "puts", the check is true and the address is not null. *)
Lemma SymbolExists_iff_no_error_witness :
  exists found,
    fst (SymbolExists sample_windows nullptr "puts" empty_world)
      = Returns found /\
    (found = true <-> (12288 <> nullptr /\ nullptr = nullptr)).
Proof.
  destruct (proj2 (SymbolExists_iff_no_error sample_windows nullptr "puts"
                     empty_world)) as (found & Hfound & _ & Hscan).
  exists found. split; [exact Hfound | exact (Hscan eq_refl)].
Defined.
